(** * The feedback service of [backend/main.py]: a shallow embedding

    The Python module is embedded function by function.  Text is a list of
    Unicode code points, a JSON document is an inductive value, a Python
    dictionary is an association list in insertion order, and code that can
    raise returns in the exception monad [res].  What belongs to the Python
    runtime and not to the module (case mapping outside ASCII, [int] of a
    string, [repr], [json.loads], float arithmetic, sorting keys of mixed
    types) is gathered in the record [runtime]; every definition that needs
    one of these takes the runtime as a section variable, so the theorems
    hold for every behaviour of those builtins. *)

From Stdlib Require Import String Ascii DecimalString SpecFloat.
From Stdlib Require Import Bool NArith ZArith Lia List Sorted Permutation.
Import ListNotations.
Local Open Scope Z_scope.
Set Warnings "-register-all".

(* ================================================================== *)
(** ** Python text *)
(* ================================================================== *)

(** A Python [str]: its code points, in order. *)
Definition str := list N.

(** An ASCII literal as a [str]. *)
Definition u (s : string) : str := map N_of_ascii (list_ascii_of_string s).
Arguments u s%_string.

Definition str_eqb (a b : str) : bool :=
  if list_eq_dec N.eq_dec a b then true else false.

(** [str.isspace] on one code point (CPython's [_PyUnicode_IsWhitespace]). *)
Definition isspace (c : N) : bool :=
  (((9 <=? c) && (c <=? 13)) || ((28 <=? c) && (c <=? 32))
   || (c =? 133) || (c =? 160) || (c =? 5760)
   || ((8192 <=? c) && (c <=? 8202))
   || (c =? 8232) || (c =? 8233) || (c =? 8239) || (c =? 8287)
   || (c =? 12288))%N.

Fixpoint lstrip (s : str) : str :=
  match s with
  | c :: r => if isspace c then lstrip r else s
  | [] => []
  end.

Definition rstrip (s : str) : str := rev (lstrip (rev s)).

(** [s.strip()] *)
Definition strip (s : str) : str := rstrip (lstrip s).

(** [s.split()]: the maximal runs of non-space code points.  [cur] is the
    word being read. *)
Fixpoint split_from (cur s : str) : list str :=
  match s with
  | [] => match cur with [] => [] | _ => [cur] end
  | c :: r =>
      if isspace c
      then match cur with [] => split_from [] r | _ => cur :: split_from [] r end
      else split_from (cur ++ [c]) r
  end.

Definition split (s : str) : list str := split_from [] s.

(** [sep.join(l)] *)
Fixpoint join (sep : str) (l : list str) : str :=
  match l with
  | [] => []
  | [w] => w
  | w :: rest => w ++ sep ++ join sep rest
  end.

Fixpoint startswith (s p : str) : bool :=
  match p, s with
  | [], _ => true
  | a :: p', b :: s' => (a =? b)%N && startswith s' p'
  | _ :: _, [] => false
  end.

(** [s.endswith(p)] *)
Definition endswith (s p : str) : bool := startswith (rev s) (rev p).

(** [w in t] on strings: [w] occurs in [t] as a substring. *)
Fixpoint contains (w t : str) : bool :=
  startswith t w || match t with [] => false | _ :: t' => contains w t' end.

(** [a < b] on strings: lexicographic on code points. *)
Fixpoint str_ltb (a b : str) : bool :=
  match a, b with
  | _, [] => false
  | [], _ :: _ => true
  | x :: a', y :: b' => (x <? y)%N || ((x =? y)%N && str_ltb a' b')
  end.

(** [str(z)] for an integer. *)
Definition dec (z : Z) : str := u (NilZero.string_of_int (Z.to_int z)).

(* ================================================================== *)
(** ** Exceptions *)
(* ================================================================== *)

Inductive exn : Type :=
| TypeError
| ValueError
| KeyError (key : str)
| OverflowError
| ZeroDivisionError
| JSONDecodeError
| OSError.

(** The outcome of code that may raise. *)
Inductive res (A : Type) : Type :=
| Ok (a : A)
| Raise (e : exn).
Arguments Ok {A} a.
Arguments Raise {A} e.

Definition bind {A B} (m : res A) (k : A -> res B) : res B :=
  match m with Ok a => k a | Raise e => Raise e end.

(** [try: m  except Exception: h] *)
Definition try_except {A} (m : res A) (h : exn -> res A) : res A :=
  match m with Ok a => Ok a | Raise e => h e end.

Notation "x <- m ;; k" := (bind m (fun x => k))
  (at level 61, m at next level, right associativity).

(* ================================================================== *)
(** ** JSON values and dictionaries *)
(* ================================================================== *)

(** What [json.load] produces, which is also what a submission holds:
    [None], [bool], [int], [float], [str], [list], and [dict] with string
    keys (in insertion order). *)
Inductive json : Type :=
| JNull
| JBool (b : bool)
| JInt (z : Z)
| JFloat (f : spec_float)
| JStr (s : str)
| JArr (l : list json)
| JObj (d : list (str * json)).

(** A Python [dict] with string keys. *)
Definition dict := list (str * json).

(** [d.get(k)] ([None] when the key is absent is [get_or k JNull]). *)
Fixpoint get (k : str) (d : dict) : option json :=
  match d with
  | [] => None
  | (k', v) :: r => if str_eqb k k' then Some v else get k r
  end.

(** [d.get(k, dflt)] *)
Definition get_or (k : str) (dflt : json) (d : dict) : json :=
  match get k d with Some v => v | None => dflt end.

(** [d[k] = v]: an existing key keeps its place, a new one goes last. *)
Fixpoint dict_set (k : str) (v : json) (d : dict) : dict :=
  match d with
  | [] => [(k, v)]
  | (k', v') :: r =>
      if str_eqb k k' then (k, v) :: r else (k', v') :: dict_set k v r
  end.

(** [{**s, **updates}] *)
Definition merge (s updates : dict) : dict :=
  fold_left (fun d kv => dict_set (fst kv) (snd kv) d) updates s.

(** The keys of a dictionary are pairwise distinct. *)
Definition dict_wf (d : dict) : Prop := NoDup (map fst d).

(** Truth value of a Python object. *)
Definition truthy (v : json) : bool :=
  match v with
  | JNull => false
  | JBool b => b
  | JInt z => negb (z =? 0)
  | JFloat (S754_zero _) => false
  | JFloat _ => true
  | JStr s => match s with [] => false | _ => true end
  | JArr l => match l with [] => false | _ => true end
  | JObj d => match d with [] => false | _ => true end
  end.

(** [a or b] *)
Definition py_or (a b : json) : json := if truthy a then a else b.

(** [int(f)] for a float: truncation toward zero; infinities and NaN raise. *)
Definition int_of_float (f : spec_float) : res Z :=
  match f with
  | S754_zero _ => Ok 0
  | S754_finite s m e =>
      let mag := if 0 <=? e then Z.pos m * 2 ^ e else Z.pos m / 2 ^ (- e) in
      Ok (if s then - mag else mag)
  | S754_infinity _ => Raise OverflowError
  | S754_nan => Raise ValueError
  end.

(** [f == i] for a float and an integer: exact comparison. *)
Definition float_eq_int (f : spec_float) (i : Z) : bool :=
  match f with
  | S754_zero _ => i =? 0
  | S754_finite s m e =>
      let v := if s then Z.neg m else Z.pos m in
      if 0 <=? e then v * 2 ^ e =? i else v =? i * 2 ^ (- e)
  | _ => false
  end.

(** [v == i] for an integer [i], as [list.count] compares. *)
Definition eq_int (v : json) (i : Z) : bool :=
  match v with
  | JInt z => z =? i
  | JBool b => (if b then 1 else 0) =? i
  | JFloat f => float_eq_int f i
  | _ => false
  end.

(** A number as [sum] returns it. *)
Inductive num : Type :=
| NInt (z : Z)
| NFloat (f : spec_float).

(* ================================================================== *)
(** ** The Python runtime *)
(* ================================================================== *)

(** The builtins the module calls whose behaviour is the interpreter's, not
    the module's.  Each is a parameter of the model. *)
Record runtime : Type := {
  (** [str.lower] on the code point at an index of a string, for a code
      point outside ASCII that is not white space (the full Unicode case
      mapping: one to three code points, context-sensitive for sigma) *)
  unicode_lower : str -> nat -> N -> str;
  (** [int(s)] for a string *)
  int_of_str : str -> res Z;
  (** [str(x)] for a float, a list or a dict *)
  repr : json -> str;
  (** [json.loads] *)
  json_loads : str -> res json;
  (** [list.sort(key=..., reverse=True)] on the keys of two or more records
      when some key is not a string: the order, or the exception of the first
      comparison that fails *)
  sort_mixed : list dict -> res (list dict);
  (** [sum(l)] when some element of [l] is not an [int] *)
  sum_other : list json -> res num;
  (** [x / n] (true division) of a sum by a positive count *)
  truediv : num -> Z -> res spec_float;
  (** [round(x, 2)] *)
  round2 : spec_float -> spec_float
}.

Section Builtins.

Variable py : runtime.

(** [int(x)] *)
Definition py_int (v : json) : res Z :=
  match v with
  | JInt z => Ok z
  | JBool b => Ok (if b then 1 else 0)
  | JFloat f => int_of_float f
  | JStr s => int_of_str py s
  | JNull | JArr _ | JObj _ => Raise TypeError
  end.

(** [str(x)], which is also how an f-string formats [x]. *)
Definition py_str (v : json) : str :=
  match v with
  | JStr s => s
  | JInt z => dec z
  | JNull => u "None"
  | JBool true => u "True"
  | JBool false => u "False"
  | JFloat _ | JArr _ | JObj _ => repr py v
  end.

(** One code point of [s.lower()]. *)
Definition lower_at (s : str) (i : nat) (c : N) : str :=
  if ((65 <=? c) && (c <=? 90))%N then [(c + 32)%N]
  else if ((c <? 128) || isspace c)%N then [c]
  else unicode_lower py s i c.

Fixpoint lower_from (s : str) (i : nat) (rest : str) : str :=
  match rest with
  | [] => []
  | c :: r => lower_at s i c ++ lower_from s (S i) r
  end.

(** [s.lower()] *)
Definition lower (s : str) : str := lower_from s 0 s.

(* ================================================================== *)
(** ** The sentiment heuristic *)
(* ================================================================== *)

Definition strong_pos : list str :=
  [u "amazing"; u "excellent"; u "outstanding"; u "perfect"; u "incredible";
   u "fantastic"; u "love"; u "highly recommend"].

Definition soft_pos : list str :=
  [u "good"; u "tasty"; u "fresh"; u "nice"; u "friendly"; u "enjoyed";
   u "satisfied"; u "would come back"].

Definition strong_neg : list str :=
  [u "terrible"; u "horrible"; u "awful"; u "worst"; u "disgusting";
   u "never again"; u "ruined"; u "unacceptable"].

Definition soft_neg : list str :=
  [u "bad"; u "cold"; u "slow"; u "rude"; u "disappointed";
   u "disappointing"; u "overpriced"; u "not good"].

(** [for word in words: if word in text: score += delta] *)
Definition scan (words : list str) (delta : Z) (text : str) (score : Z) : Z :=
  fold_left (fun sc word => if contains word text then sc + delta else sc)
            words score.

(** The four loops of the heuristic, on the lowered text. *)
Definition keyword_score (text : str) : Z :=
  scan soft_neg (-1) text
    (scan strong_neg (-2) text
       (scan soft_pos 1 text
          (scan strong_pos 2 text 0))).

(** The base rating: [int(rating)] when it lies in 1..5, else 3. *)
Definition base_rating (rating : json) : Z :=
  match py_int rating with
  | Ok b => if (1 <=? b) && (b <=? 5) then b else 3
  | Raise _ => 3
  end.

(** The lookup table at the end of the heuristic. *)
Definition stars_of_score (score base : Z) : Z :=
  if 4 <=? score then 5
  else if score =? 3 then 4
  else if score =? 2 then (if 4 <=? base then 4 else 3)
  else if score =? 1 then (if base <=? 3 then 3 else 4)
  else if score =? 0 then base
  else if score =? -1 then (if base <=? 3 then 2 else 3)
  else if score <=? -2 then 1
  else base.

(** [_predict_stars_from_text_heuristic(rating, review_text)]; the result
    [None] is Python's [None]. *)
Definition _predict_stars_from_text_heuristic
    (rating : json) (review_text : str) : option Z :=
  let text := lower review_text in
  match strip text with
  | [] =>
      match py_int rating with
      | Ok r => if (1 <=? r) && (r <=? 5) then Some r else None
      | Raise _ => None
      end
  | _ => Some (stars_of_score (keyword_score text) (base_rating rating))
  end.

End Builtins.

(* ================================================================== *)
(** ** The AI pack *)
(* ================================================================== *)

(** The dictionary [generate_ai_pack] returns, as a record of its five
    keys. *)
Record pack : Type := {
  ai_response : str;
  ai_summary : str;
  ai_recommended_actions : str;
  predicted_stars : option Z;
  prediction_explanation : str
}.

Definition nl : str := [10%N].

(** [a or b] on strings. *)
Definition str_or (a b : str) : str :=
  match a with [] => b | _ => a end.

(** [snippet.endswith((".", "!", "?"))] *)
Definition ends_terminal (s : str) : bool :=
  endswith s (u ".") || endswith s (u "!") || endswith s (u "?").

(** The first two statements on [snippet] in [_instant_ai_pack]. *)
Definition snippet_of (review_text : str) : str :=
  let snippet := strip (join (u " ") (firstn 18 (split (strip review_text)))) in
  match snippet with
  | [] => snippet
  | _ => if ends_terminal snippet then snippet else snippet ++ u "..."
  end.

Definition low_response (name snippet : str) : str :=
  u "Hi " ++ name ++
  u ", thank you for telling us about your experience. I'm really sorry things did not go well. " ++
  u "We take feedback like '" ++ str_or snippet (u "your review") ++
  u "' seriously and we'll work with our team to fix these issues. " ++
  u "We hope you'll give us another chance so we can make your next visit much better.".

Definition low_actions : str :=
  u "Here is a quick action plan based on this negative experience:" ++ nl ++
  u "1. Investigate the specific problems mentioned in the review and document the root causes so the team clearly understands what went wrong." ++ nl ++
  u "2. Provide targeted coaching or refresher training for the staff involved, focusing on service recovery, communication, and food quality standards." ++ nl ++
  u "3. Proactively follow up with the customer, explain the corrective steps you are taking, and offer a recovery gesture (apology, replacement, or discount) to rebuild trust.".

Definition low_summary (rating snippet : str) : str :=
  u "Customer gave a " ++ rating ++
  u "-star rating and the review feels **negative**. " ++
  u "Key issue described: **" ++
  str_or snippet (u "no clear details provided") ++ u "**.".

Definition mid_response (name snippet : str) : str :=
  u "Thank you " ++ name ++ u " for the honest and balanced feedback. " ++
  u "You mentioned '" ++ str_or snippet (u "both positives and negatives") ++
  u "', and we'll use this to improve. " ++
  u "We appreciate you giving us a chance and hope your next visit will feel even better.".

(** The three code points after [next 1] are those of the source file. *)
Definition mid_actions : str :=
  u "Here is a balanced improvement plan for this mixed review:" ++ nl ++
  u "1. Identify the main friction point mentioned (for example, speed, consistency, or communication) and create a small experiment or SOP change to address it over the next 1" ++
  [8218%N; 196%N; 236%N] ++ u "2 weeks." ++ nl ++
  u "2. Preserve the strengths the customer liked by sharing those positives with the team and building them into your standard operating procedures." ++ nl ++
  u "3. Monitor reviews with similar themes and track before/after ratings so you can confirm whether the changes are actually improving the guest experience.".

Definition mid_summary (rating snippet : str) : str :=
  u "Customer gave a " ++ rating ++
  u "-star rating and the review sounds **mixed/neutral**. " ++
  u "Main points: **" ++
  str_or snippet (u "no clear details provided") ++ u "**.".

Definition high_response (name rating snippet : str) : str :=
  u "Thank you " ++ name ++ u " for such a wonderful review and the " ++
  rating ++ u "-star rating! " ++
  u "We're really happy you enjoyed your visit, especially your note: '" ++
  str_or snippet (u "your kind words") ++ u "'. " ++
  u "We're grateful to have you as a customer and we're still improving our service every day to make your future visits even better.".

Definition high_actions : str :=
  u "Here is how you can turn this positive feedback into long-term value:" ++ nl ++
  u "1. Share this review with the full team to recognize their effort, and call out any specific individuals or shifts that contributed so they feel appreciated." ++ nl ++
  u "2. Document what went especially well (speed, flavor, friendliness, ambiance) and turn those behaviors into clear standards or checklists for every shift." ++ nl ++
  u "3. Use this review in your marketing or in-store signage (with permission), and train staff to invite similarly satisfied guests to leave their own reviews to build momentum.".

Definition high_summary (rating snippet : str) : str :=
  u "Customer gave a " ++ rating ++
  u "-star rating and the review feels **positive**. " ++
  u "Key praise: **" ++
  str_or snippet (u "no extra details provided") ++ u "**.".

Definition instant_explanation : str :=
  u "Prediction approximated from the text sentiment and given rating for a fast response.".

Section Generator.

Variable py : runtime.

(** [effective_rating] of [_instant_ai_pack]: the heuristic's stars, or the
    base rating when the heuristic returns [None].  (The [try] around the
    heuristic guards a [review_text] that is not a string; for a string the
    heuristic does not raise.) *)
Definition effective_rating (rating : json) (review_text : str) : Z :=
  match _predict_stars_from_text_heuristic py rating review_text with
  | Some s => s
  | None => base_rating py rating
  end.

(** [_instant_ai_pack(rating, review_text, username)] *)
Definition _instant_ai_pack
    (rating : json) (review_text : str) (username : option str) : pack :=
  let name := str_or (match username with Some n => n | None => [] end)
                     (u "there") in
  let snippet := snippet_of review_text in
  let eff := effective_rating rating review_text in
  let r := py_str py rating in
  let stars := if (1 <=? eff) && (eff <=? 5) then eff else 3 in
  if eff <=? 2 then
    {| ai_response := low_response name snippet;
       ai_summary := low_summary r snippet;
       ai_recommended_actions := low_actions;
       predicted_stars := Some stars;
       prediction_explanation := instant_explanation |}
  else if eff =? 3 then
    {| ai_response := mid_response name snippet;
       ai_summary := mid_summary r snippet;
       ai_recommended_actions := mid_actions;
       predicted_stars := Some stars;
       prediction_explanation := instant_explanation |}
  else
    {| ai_response := high_response name r snippet;
       ai_summary := high_summary r snippet;
       ai_recommended_actions := high_actions;
       predicted_stars := Some stars;
       prediction_explanation := instant_explanation |}.

(** [_fallback_ai_pack] *)
Definition _fallback_ai_pack
    (rating : json) (review_text : str) (username : option str) : pack :=
  _instant_ai_pack rating review_text username.

End Generator.

(* ================================================================== *)
(** ** Extracting a JSON object from the model's text *)
(* ================================================================== *)

(** The fragment of regular expressions the module uses: a literal code
    point, and [[\s\S]*], which matches any run of code points, greedily. *)
Inductive atom : Type :=
| Chr (c : N)
| AnyStar.

(** The greedy star followed by the rest of the pattern [k]: it first
    tries to take one more code point and gives it back only when the rest
    fails, as the backtracking matcher of [re] does. *)
Fixpoint star (k : str -> option nat) (s : str) : option nat :=
  match s with
  | [] => k []
  | _ :: s' =>
      match star k s' with
      | Some n => Some (S n)
      | None => k s
      end
  end.

(** The match of a pattern at the head of a string: its length. *)
Fixpoint match_here (p : list atom) : str -> option nat :=
  match p with
  | [] => fun _ => Some 0%nat
  | Chr c :: p' =>
      fun s =>
        match s with
        | x :: s' => if (x =? c)%N then option_map S (match_here p' s') else None
        | [] => None
        end
  | AnyStar :: p' => star (match_here p')
  end.

(** [re.search(p, s).group(0)]: the match at the leftmost position that
    has one. *)
Fixpoint re_search (p : list atom) (s : str) : option str :=
  match match_here p s with
  | Some n => Some (firstn n s)
  | None => match s with [] => None | _ :: s' => re_search p s' end
  end.

(** The pattern [\{[\s\S]*\}]. *)
Definition brace_pattern : list atom := [Chr 123; AnyStar; Chr 125].

(** [parsed if isinstance(parsed, dict) else None] *)
Definition as_dict (j : json) : option dict :=
  match j with JObj d => Some d | _ => None end.

Section Extract.

Variable py : runtime.

(** [extract_json_strong(raw)], together with the documents it hands to
    [json.loads], in order. *)
Definition extract_json_strong_traced (raw : str) : option dict * list str :=
  match raw with
  | [] => (None, [])
  | _ =>
      let cleaned := strip raw in
      match json_loads py cleaned with
      | Ok parsed => (as_dict parsed, [cleaned])
      | Raise _ =>
          match re_search brace_pattern cleaned with
          | None => (None, [cleaned])
          | Some candidate =>
              (match json_loads py candidate with
               | Ok parsed => as_dict parsed
               | Raise _ => None
               end, [cleaned; candidate])
          end
      end
  end.

(** [extract_json_strong(raw)] *)
Definition extract_json_strong (raw : str) : option dict :=
  fst (extract_json_strong_traced raw).

(* ================================================================== *)
(** ** Generating the pack with the model *)
(* ================================================================== *)

(** What [_generate_content_with_timeout] returns: [None] (a timeout or an
    error of the call), or a response whose [text] attribute is a string,
    is [None], or raises when read. *)
Inductive reply : Type :=
| NoReply
| Reply (text : res (option str)).

(** The configured model.  The prompt is a fixed template around the
    customer label, the rating and the review text, so the reply is given as
    a function of these three. *)
Definition endpoint := str -> json -> str -> reply.

Definition is_none (v : json) : bool :=
  match v with JNull => true | _ => false end.

Definition is_empty_str (v : json) : bool :=
  match v with JStr [] => true | _ => false end.

(** [str(parsed.get(key) or dflt).strip()] *)
Definition text_field (parsed : dict) (key dflt : str) : str :=
  strip (py_str py (py_or (get_or key JNull parsed) (JStr dflt))).

(** The inner [try] of [generate_ai_pack] on [predicted_stars]. *)
Definition validated_stars (predicted : json) : option Z :=
  match
    (if negb (is_none predicted) && negb (is_empty_str predicted)
     then predicted_int <- py_int py predicted ;;
          Ok (if (1 <=? predicted_int) && (predicted_int <=? 5)
              then Some predicted_int else None)
     else Ok None)
  with
  | Ok r => r
  | Raise _ => None
  end.

(** [generate_ai_pack(rating, review_text, username)]; [model] is the
    module's global of that name. *)
Definition generate_ai_pack (model : option endpoint)
    (rating : json) (review_text : str) (username : option str) : res pack :=
  match model with
  | None => Ok (_fallback_ai_pack py rating review_text username)
  | Some generate_content =>
      let user_label :=
        str_or (match username with Some n => n | None => [] end)
               (u "customer") in
      try_except
        (raw <- match generate_content user_label rating review_text with
                | NoReply => Ok []
                | Reply text =>
                    t <- text ;;
                    Ok (strip (match t with Some s => s | None => [] end))
                end ;;
         let parsed :=
           match extract_json_strong raw with Some d => d | None => [] end in
         let response := text_field parsed (u "ai_response") [] in
         let summary := text_field parsed (u "ai_summary") [] in
         let actions := text_field parsed (u "ai_recommended_actions") [] in
         let explanation :=
           text_field parsed (u "prediction_explanation") (u "AI prediction") in
         let predicted := get_or (u "predicted_stars") JNull parsed in
         let stars :=
           match validated_stars predicted with
           | Some s => Some s
           | None => _predict_stars_from_text_heuristic py rating review_text
           end in
         match response, summary, actions with
         | _ :: _, _ :: _, _ :: _ =>
             Ok {| ai_response := response;
                   ai_summary := summary;
                   ai_recommended_actions := actions;
                   predicted_stars := stars;
                   prediction_explanation :=
                     str_or explanation (u "AI prediction") |}
         | _, _, _ => Ok (_fallback_ai_pack py rating review_text username)
         end)
        (fun _ => Ok (_fallback_ai_pack py rating review_text username))
  end.

End Extract.

(* ================================================================== *)
(** ** The submission store *)
(* ================================================================== *)

(** The backing file [submissions.json]: the document [json.load] reads
    from it ([None] when its text is not well-formed JSON) and its
    modification time.  [json.dump] followed by [json.load] gives the
    document back, so a written file is represented by what was dumped. *)
Record file : Type := {
  content : option json;
  mtime : Z
}.

(** The file (absent when [DATA_FILE.exists()] is false) and the two
    module globals [_submissions_cache_mtime] and
    [_submissions_cache_data]. *)
Record store : Type := {
  data_file : option file;
  cache_mtime : option Z;
  cache_data : list dict
}.

(** What the file system does on a write: whether writing the temporary
    file and replacing the target succeeds, and the modification time the
    replaced file gets. *)
Record disk : Type := {
  write_ok : bool;
  stamp : Z
}.

(** The list the loader takes from the document. *)
Definition submissions_of_document (raw : json) : list json :=
  match raw with
  | JObj d =>
      match get (u "submissions") d with
      | Some (JArr l) => l
      | _ => []
      end
  | JArr l => l
  | _ => []
  end.

(** [[s for s in submissions if isinstance(s, dict)]] *)
Definition only_dicts (l : list json) : list dict :=
  flat_map (fun j => match j with JObj d => [d] | _ => [] end) l.

(** The sort key [x.get("timestamp", "")]. *)
Definition timestamp_key (x : dict) : json := get_or (u "timestamp") (JStr []) x.

(** The keys of the records when every one is a string. *)
Fixpoint str_keys (l : list dict) : option (list (str * dict)) :=
  match l with
  | [] => Some []
  | x :: r =>
      match timestamp_key x, str_keys r with
      | JStr k, Some kr => Some ((k, x) :: kr)
      | _, _ => None
      end
  end.

(** Insertion into a list sorted by decreasing key, before the first
    element whose key is not greater. *)
Fixpoint insert_desc (k : str) (x : dict) (l : list (str * dict))
  : list (str * dict) :=
  match l with
  | [] => [(k, x)]
  | (k', y) :: r =>
      if str_ltb k k' then (k', y) :: insert_desc k x r else (k, x) :: l
  end.

(** The stable sort by decreasing key: it is the order
    [sort(key=..., reverse=True)] produces, records of equal key staying in
    their original order. *)
Definition sort_desc (l : list (str * dict)) : list (str * dict) :=
  fold_right (fun kx acc => insert_desc (fst kx) (snd kx) acc) [] l.

Section Store.

Variable py : runtime.

(** [submissions.sort(key=lambda x: x.get("timestamp", ""), reverse=True)] *)
Definition sort_newest_first (l : list dict) : res (list dict) :=
  match str_keys l with
  | Some kl => Ok (map snd (sort_desc kl))
  | None =>
      match l with
      | [] | [_] => Ok l
      | _ => sort_mixed py l
      end
  end.

(** The body of the [try] of [_load_submissions_unlocked] on a cache miss. *)
Definition parse_file (f : file) : res (list dict) :=
  raw <- match content f with
         | Some j => Ok j
         | None => Raise JSONDecodeError
         end ;;
  sort_newest_first (only_dicts (submissions_of_document raw)).

(** [_submissions_cache_mtime == mtime] *)
Definition cache_hit (st : store) (f : file) : bool :=
  match cache_mtime st with
  | Some m => m =? mtime f
  | None => false
  end.

(** [_load_submissions_unlocked()]: the list returned and the globals
    after the call. *)
Definition _load_submissions_unlocked (st : store) : list dict * store :=
  match data_file st with
  | None => ([], st)
  | Some f =>
      if cache_hit st f then (cache_data st, st)
      else
        match parse_file f with
        | Ok submissions =>
            (submissions,
             {| data_file := data_file st;
                cache_mtime := Some (mtime f);
                cache_data := submissions |})
        | Raise _ => ([], st)
        end
  end.

(** [load_submissions()]; the lock does not show in a sequential run. *)
Definition load_submissions (st : store) : list dict * store :=
  _load_submissions_unlocked st.

(** [_atomic_write_json(DATA_FILE, data)] *)
Definition _atomic_write_json (io : disk) (data : list dict) (st : store)
  : res store :=
  if write_ok io
  then Ok {| data_file := Some {| content := Some (JArr (map JObj data));
                                  mtime := stamp io |};
             cache_mtime := cache_mtime st;
             cache_data := cache_data st |}
  else Raise OSError.

(** The two assignments to the cache globals after a write. *)
Definition refresh_cache (data : list dict) (st : store) : store :=
  {| data_file := data_file st;
     cache_mtime := match data_file st with
                    | Some f => Some (mtime f)
                    | None => cache_mtime st
                    end;
     cache_data := data |}.

(** [save_submission(submission)]: the value returned ([None] on an
    exception) and the state after the call. *)
Definition save_submission (io : disk) (submission : dict) (st : store)
  : option dict * store :=
  let (loaded, st1) := load_submissions st in
  let submissions := loaded ++ [submission] in
  match _atomic_write_json io submissions st1 with
  | Ok st2 => (Some submission, refresh_cache submissions st2)
  | Raise _ => (None, st1)
  end.

(** [s.get("id") == submission_id] *)
Definition has_id (submission_id : str) (s : dict) : bool :=
  match get (u "id") s with
  | Some (JStr i) => str_eqb i submission_id
  | _ => false
  end.

(** The loop of [update_submission_return]: the merged record and the list
    with the first record of that id replaced by it. *)
Fixpoint update_first (submission_id : str) (updates : dict)
    (submissions : list dict) : option (dict * list dict) :=
  match submissions with
  | [] => None
  | s :: r =>
      if has_id submission_id s
      then Some (merge s updates, merge s updates :: r)
      else match update_first submission_id updates r with
           | Some (updated, r') => Some (updated, s :: r')
           | None => None
           end
  end.

(** [update_submission_return(submission_id, updates)] *)
Definition update_submission_return (io : disk) (submission_id : str)
    (updates : dict) (st : store) : option dict * store :=
  let (loaded, st1) := load_submissions st in
  match update_first submission_id updates loaded with
  | None => (None, st1)
  | Some (updated, submissions) =>
      match _atomic_write_json io submissions st1 with
      | Ok st2 => (Some updated, refresh_cache submissions st2)
      | Raise _ => (None, st1)
      end
  end.

End Store.

(* ================================================================== *)
(** ** The endpoints *)
(* ================================================================== *)

(** A [datetime] as [datetime.now()] returns it. *)
Record datetime : Type := {
  year : Z;
  month : Z;
  day : Z;
  hour : Z;
  minute : Z;
  second : Z;
  microsecond : Z
}.

(** The fields are in the ranges of a [datetime] of a four-digit year. *)
Definition datetime_wf (d : datetime) : Prop :=
  1000 <= year d <= 9999 /\ 1 <= month d <= 12 /\ 1 <= day d <= 31 /\
  0 <= hour d <= 23 /\ 0 <= minute d <= 59 /\ 0 <= second d <= 59 /\
  0 <= microsecond d <= 999999.

Definition digit (n : Z) : N := (48 + Z.to_N n)%N.

(** The last [w] decimal digits of [n], zero-padded. *)
Fixpoint pad (w : nat) (n : Z) : str :=
  match w with
  | O => []
  | S w' => pad w' (n / 10) ++ [digit (n mod 10)]
  end.

(** [d.strftime('%Y%m%d%H%M%S')] *)
Definition strftime_compact (d : datetime) : str :=
  pad 4 (year d) ++ pad 2 (month d) ++ pad 2 (day d) ++
  pad 2 (hour d) ++ pad 2 (minute d) ++ pad 2 (second d).

(** [d.isoformat()]: the microseconds are printed only when not zero. *)
Definition isoformat (d : datetime) : str :=
  pad 4 (year d) ++ u "-" ++ pad 2 (month d) ++ u "-" ++ pad 2 (day d) ++
  u "T" ++ pad 2 (hour d) ++ u ":" ++ pad 2 (minute d) ++ u ":" ++
  pad 2 (second d) ++
  (if microsecond d =? 0 then [] else u "." ++ pad 6 (microsecond d)).

(** [f"sub_{datetime.now().strftime('%Y%m%d%H%M%S')}_{secrets.randbelow(100)}"] *)
Definition submission_id_of (now : datetime) (draw : Z) : str :=
  u "sub_" ++ strftime_compact now ++ u "_" ++ dec draw.

(** The request body [ReviewSubmission], as validated by the framework. *)
Record ReviewSubmission : Type := {
  body_rating : Z;
  body_review_text : str
}.

(** What one call of [submit_review] reads from outside the module: the
    clock when the id is built, the draw of [secrets.randbelow(100)], the
    clock when the timestamp is taken, the configured model, and the file
    system's answer to the write. *)
Record world : Type := {
  clock_id : datetime;
  draw : Z;
  clock_timestamp : datetime;
  model : option endpoint;
  io : disk
}.

(** The answer of an endpoint: the value returned, or an [HTTPException]
    with its status code and the exception it reports, if any. *)
Inductive response (A : Type) : Type :=
| Returns (a : A)
| HTTPException (status_code : Z) (cause : option exn).
Arguments Returns {A} a.
Arguments HTTPException {A} status_code cause.

Definition json_of_stars (s : option Z) : json :=
  match s with Some z => JInt z | None => JNull end.

(** The statistics [get_stats] returns. *)
Record stats : Type := {
  total_reviews : Z;
  average_rating : num;
  rating_distribution : list (str * Z)
}.

(** [l.count(i)] *)
Definition count (l : list json) (i : Z) : Z :=
  Z.of_nat (List.length (filter (fun v => eq_int v i) l)).

(** The ratings when every one is an [int]. *)
Fixpoint ints_of (l : list json) : option (list Z) :=
  match l with
  | [] => Some []
  | JInt z :: r =>
      match ints_of r with Some zs => Some (z :: zs) | None => None end
  | _ :: _ => None
  end.

(** [[s["rating"] for s in submissions]] *)
Fixpoint ratings_of (submissions : list dict) : res (list json) :=
  match submissions with
  | [] => Ok []
  | s :: r =>
      match get (u "rating") s with
      | Some v => rs <- ratings_of r ;; Ok (v :: rs)
      | None => Raise (KeyError (u "rating"))
      end
  end.

Section Endpoints.

Variable py : runtime.

(** The dictionary [submit_review] builds. *)
Definition new_submission (w : world) (payload : ReviewSubmission) : dict :=
  let submission_id := submission_id_of (clock_id w) (draw w) in
  let rating := JInt (body_rating payload) in
  let p :=
    match generate_ai_pack py (model w) rating (body_review_text payload) None with
    | Ok p => p
    | Raise _ => _fallback_ai_pack py rating (body_review_text payload) None
    end in
  [ (u "id", JStr submission_id);
    (u "rating", rating);
    (u "review_text", JStr (body_review_text payload));
    (u "user_id", JNull);
    (u "username", JNull);
    (u "ai_response", JStr (ai_response p));
    (u "ai_summary", JStr (ai_summary p));
    (u "ai_recommended_actions", JStr (ai_recommended_actions p));
    (u "predicted_stars", json_of_stars (predicted_stars p));
    (u "prediction_explanation", JStr (prediction_explanation p));
    (u "timestamp", JStr (isoformat (clock_timestamp w)));
    (u "status", JStr (u "completed")) ].

(** [submit_review(payload)] *)
Definition submit_review (w : world) (payload : ReviewSubmission) (st : store)
  : response dict * store :=
  let submission := new_submission w payload in
  match save_submission py (io w) submission st with
  | (Some _, st') => (Returns submission, st')
  | (None, st') => (HTTPException 500 None, st')
  end.

(** [sum(ratings)] *)
Definition py_sum (ratings : list json) : res num :=
  match ints_of ratings with
  | Some zs => Ok (NInt (fold_left Z.add zs 0))
  | None => sum_other py ratings
  end.

(** The body of the [try] of [get_stats] for a list that is not empty. *)
Definition compute_stats (submissions : list dict) : res stats :=
  ratings <- ratings_of submissions ;;
  let total := Z.of_nat (List.length ratings) in
  sum <- py_sum ratings ;;
  avg <- truediv py sum total ;;
  Ok {| total_reviews := total;
        average_rating := NFloat (round2 py avg);
        rating_distribution :=
          map (fun i => (dec i, count ratings i)) [1; 2; 3; 4; 5] |}.

(** [get_stats()] *)
Definition get_stats (st : store) : response stats * store :=
  let (submissions, st') := load_submissions py st in
  match submissions with
  | [] =>
      (Returns {| total_reviews := 0;
                  average_rating := NInt 0;
                  rating_distribution :=
                    map (fun i => (dec i, 0)) [1; 2; 3; 4; 5] |}, st')
  | _ =>
      match compute_stats submissions with
      | Ok s => (Returns s, st')
      | Raise e => (HTTPException 500 (Some e), st')
      end
  end.

End Endpoints.

(* ================================================================== *)
(** ** A runtime for the examples *)
(* ================================================================== *)

(** The examples below run the model on concrete inputs and need one
    concrete runtime.  This one covers a fragment of CPython on which it
    agrees with it: JSON documents whose strings have no escapes and whose
    numbers are integers, decimal integer literals, quotients of integers
    below 2^53, rounding of a float that has at most two decimals, text
    without cased letters outside ASCII; where the fragment of a parser or
    of the arithmetic ends it raises.  [repr] and the sorting of keys of
    mixed types are not reached by any example. *)

Fixpoint skip_ws (s : str) : str :=
  match s with
  | c :: r =>
      if ((c =? 32) || (c =? 9) || (c =? 10) || (c =? 13))%N
      then skip_ws r else s
  | [] => []
  end.

Definition is_digit (c : N) : bool := ((48 <=? c) && (c <=? 57))%N.

(** The digits at the head of [s], read after the value [acc]. *)
Fixpoint read_digits (acc : Z) (s : str) : Z * str :=
  match s with
  | c :: r =>
      if is_digit c then read_digits (10 * acc + (Z.of_N c - 48)) r
      else (acc, s)
  | [] => (acc, [])
  end.

(** A string body up to its closing quote; an escape or a control
    character is outside the fragment. *)
Fixpoint read_string (s : str) : option (str * str) :=
  match s with
  | [] => None
  | c :: r =>
      if (c =? 34)%N then Some ([], r)
      else if ((c =? 92) || (c <? 32))%N then None
      else match read_string r with
           | Some (w, rest) => Some (c :: w, rest)
           | None => None
           end
  end.

(** An integer literal: no leading zero, no fraction, no exponent. *)
Definition read_int (s : str) : option (Z * str) :=
  let unsigned (t : str) :=
    match t with
    | c :: r =>
        if is_digit c then
          if (c =? 48)%N && match r with d :: _ => is_digit d | [] => false end
          then None
          else
            let (z, rest) := read_digits 0 t in
            match rest with
            | d :: _ => if ((d =? 46) || (d =? 101) || (d =? 69))%N
                        then None else Some (z, rest)
            | [] => Some (z, rest)
            end
        else None
    | [] => None
    end in
  match s with
  | 45%N :: t =>
      match unsigned t with Some (z, rest) => Some (- z, rest) | None => None end
  | _ => unsigned s
  end.

Fixpoint parse_value (fuel : nat) (s : str) : option (json * str) :=
  match fuel with
  | O => None
  | S n =>
      match skip_ws s with
      | 110%N :: 117%N :: 108%N :: 108%N :: r => Some (JNull, r)
      | 116%N :: 114%N :: 117%N :: 101%N :: r => Some (JBool true, r)
      | 102%N :: 97%N :: 108%N :: 115%N :: 101%N :: r => Some (JBool false, r)
      | 34%N :: r =>
          match read_string r with
          | Some (w, rest) => Some (JStr w, rest)
          | None => None
          end
      | 91%N :: r =>
          match skip_ws r with
          | 93%N :: rest => Some (JArr [], rest)
          | _ =>
              match parse_items n r with
              | Some (l, rest) => Some (JArr l, rest)
              | None => None
              end
          end
      | 123%N :: r =>
          match skip_ws r with
          | 125%N :: rest => Some (JObj [], rest)
          | _ =>
              match parse_members n r with
              | Some (d, rest) => Some (JObj (merge [] d), rest)
              | None => None
              end
          end
      | t =>
          match read_int t with
          | Some (z, rest) => Some (JInt z, rest)
          | None => None
          end
      end
  end
with parse_items (fuel : nat) (s : str) : option (list json * str) :=
  match fuel with
  | O => None
  | S n =>
      match parse_value n s with
      | Some (v, r) =>
          match skip_ws r with
          | 44%N :: r' =>
              match parse_items n r' with
              | Some (l, rest) => Some (v :: l, rest)
              | None => None
              end
          | 93%N :: rest => Some ([v], rest)
          | _ => None
          end
      | None => None
      end
  end
with parse_members (fuel : nat) (s : str) : option (dict * str) :=
  match fuel with
  | O => None
  | S n =>
      match skip_ws s with
      | 34%N :: r =>
          match read_string r with
          | Some (k, r1) =>
              match skip_ws r1 with
              | 58%N :: r2 =>
                  match parse_value n r2 with
                  | Some (v, r3) =>
                      match skip_ws r3 with
                      | 44%N :: r4 =>
                          match parse_members n r4 with
                          | Some (d, rest) => Some ((k, v) :: d, rest)
                          | None => None
                          end
                      | 125%N :: rest => Some ([(k, v)], rest)
                      | _ => None
                      end
                  | None => None
                  end
              | _ => None
              end
          | None => None
          end
      | _ => None
      end
  end.

Definition example_json_loads (s : str) : res json :=
  match parse_value (2 * List.length s + 2) s with
  | Some (v, rest) =>
      match skip_ws rest with
      | [] => Ok v
      | _ => Raise JSONDecodeError
      end
  | None => Raise JSONDecodeError
  end.

Definition example_int_of_str (s : str) : res Z :=
  match read_int (strip s) with
  | Some (z, []) => Ok z
  | _ => Raise ValueError
  end.

Definition float_of_Z (z : Z) : spec_float := binary_normalize 53 1024 z 0 false.

Definition example_truediv (x : num) (n : Z) : res spec_float :=
  match x with
  | NInt a =>
      if n =? 0 then Raise ZeroDivisionError
      else if (Z.abs a <? 2 ^ 53) && (Z.abs n <? 2 ^ 53)
      then Ok (SFdiv 53 1024 (float_of_Z a) (float_of_Z n))
      else Raise OverflowError
  | NFloat _ => Raise TypeError
  end.

Definition example_runtime : runtime :=
  {| unicode_lower := fun _ _ c => [c];
     int_of_str := example_int_of_str;
     repr := fun _ => u "?";
     json_loads := example_json_loads;
     sort_mixed := fun _ => Raise TypeError;
     sum_other := fun _ => Raise TypeError;
     truediv := example_truediv;
     round2 := fun f => f |}.

(* ================================================================== *)
(** ** Notions and examples the statements use *)
(* ================================================================== *)

(** A keyword starts with a code point that is not white space. *)
Definition keyword_ok (w : str) : bool :=
  match w with c :: _ => negb (isspace c) | [] => false end.

(** Case analysis on every condition of the goal. *)
Ltac split_ifs :=
  repeat match goal with
         | |- context [if ?b then _ else _] => destruct b eqn:?
         end.

(** No code point of [w] is white space. *)
Definition spacefree (w : str) : bool := forallb (fun c => negb (isspace c)) w.

(** A word as [split] returns it: not empty, no white space. *)
Definition word_ok (w : str) : Prop := w <> [] /\ spacefree w = true.

(** The first code point, if any, is not white space. *)
Definition hd_ok (s : str) : Prop :=
  match s with [] => True | c :: _ => isspace c = false end.

(** The first 18 words of the review text, joined by single spaces. *)
Definition first_words (review_text : str) : str :=
  join (u " ") (firstn 18 (split review_text)).

(** Three dots after a snippet that does not end in terminal
    punctuation. *)
Definition with_ellipsis (body : str) : str :=
  if ends_terminal body then body else body ++ u "...".

(** The span the claim describes: from the first opening brace of [s] to
    its last closing brace. *)
Definition first_to_last_brace (s candidate : str) : Prop :=
  exists pre mid post,
    s = pre ++ candidate ++ post /\
    candidate = 123%N :: mid ++ [125%N] /\
    ~ In 123%N pre /\ ~ In 125%N post.

(** Two stored records, for the examples. *)
Definition older : dict :=
  [ (u "id", JStr (u "sub_20240101100000_7"));
    (u "rating", JInt 2);
    (u "timestamp", JStr (u "2024-01-01T10:00:00"));
    (u "status", JStr (u "completed")) ].

Definition newer : dict :=
  [ (u "id", JStr (u "sub_20240102100000_3"));
    (u "rating", JInt 5);
    (u "timestamp", JStr (u "2024-01-02T10:00:00"));
    (u "status", JStr (u "completed")) ].

(** A store as a process finds it when it starts: the file with a given
    document and modification time, and an empty cache. *)
Definition on_disk (document : option json) (m : Z) : store :=
  {| data_file := Some {| content := document; mtime := m |};
     cache_mtime := None;
     cache_data := [] |}.

(** The document [json.dump] writes for a list of records. *)
Definition records (l : list dict) : option json := Some (JArr (map JObj l)).

(** A write that succeeds and stamps the file with time [m]. *)
Definition disk_ok (m : Z) : disk := {| write_ok := true; stamp := m |}.

(** Two clock readings fall in the same second. *)
Definition same_second (a b : datetime) : Prop :=
  year a = year b /\ month a = month b /\ day a = day b /\
  hour a = hour b /\ minute a = minute b /\ second a = second b.

(** The second in which [older] was made. *)
Definition new_year_ten : datetime :=
  {| year := 2024; month := 1; day := 1; hour := 10; minute := 0;
     second := 0; microsecond := 0 |}.

(** A request served at [d] ([us] microseconds into the second when the
    timestamp is taken) with draw [n], no model configured, and a write
    that succeeds at time [m]. *)
Definition request (d : datetime) (n us m : Z) : world :=
  {| clock_id := d;
     draw := n;
     clock_timestamp :=
       {| year := year d; month := month d; day := day d; hour := hour d;
          minute := minute d; second := second d; microsecond := us |};
     model := None;
     io := disk_ok m |}.

Definition complaint : ReviewSubmission :=
  {| body_rating := 1; body_review_text := u "Terrible service, rude staff" |}.

Definition praise : ReviewSubmission :=
  {| body_rating := 5; body_review_text := u "Great" |}.

Definition unrated : dict :=
  [ (u "id", JStr (u "sub_20240103100000_1"));
    (u "timestamp", JStr (u "2024-01-03T10:00:00")) ].

(* ================================================================== *)
(** ** The rest of the store: the boolean update and the background task *)
(* ================================================================== *)

(** The timestamp of a record as the sort compares it, when it is a
    string. *)
Definition key_of (s : dict) : str :=
  match timestamp_key s with JStr t => t | _ => [] end.

(** The sort key of the record is a string (an absent timestamp counts as
    the empty string). *)
Definition str_timestamped (s : dict) : Prop :=
  exists t, timestamp_key s = JStr t.

(** No record is followed, anywhere later in the list, by one with a
    greater timestamp. *)
Definition newest_first (l : list dict) : Prop :=
  StronglySorted (fun a b => str_ltb (key_of a) (key_of b) = false) l.



Section StoreMore.

Variable py : runtime.

(** [update_submission(submission_id, updates)] *)
Definition update_submission (io : disk) (submission_id : str)
    (updates : dict) (st : store) : bool * store :=
  let (loaded, st1) := load_submissions py st in
  match update_first submission_id updates loaded with
  | None => (false, st1)
  | Some (_, submissions) =>
      match _atomic_write_json io submissions st1 with
      | Ok st2 => (true, refresh_cache submissions st2)
      | Raise _ => (false, st1)
      end
  end.


End StoreMore.


(** A write that fails. *)
Definition disk_full : disk := {| write_ok := false; stamp := 0 |}.

(** [a < b] on [datetime] values: the comparison of their fields in
    order, year first. *)
Definition earlier (a b : datetime) : bool :=
  (year a <? year b) || ((year a =? year b) &&
  ((month a <? month b) || ((month a =? month b) &&
  ((day a <? day b) || ((day a =? day b) &&
  ((hour a <? hour b) || ((hour a =? hour b) &&
  ((minute a <? minute b) || ((minute a =? minute b) &&
  ((second a <? second b) || ((second a =? second b) &&
  (microsecond a <? microsecond b)))))))))))).

(** The fraction [isoformat] prints after the seconds. *)
Definition fraction (us : Z) : str :=
  if us =? 0 then [] else u "." ++ pad 6 us.

(* ================================================================== *)
(** ** The listing endpoints and the analytics tallies *)
(* ================================================================== *)

(** The answer of the endpoints below: the value sent, or the status code
    of the [HTTPException] raised (its detail text is not represented). *)
Inductive answer (A : Type) : Type :=
| Sent (a : A)
| Status (status_code : Z).
Arguments Sent {A} a.
Arguments Status {A} status_code.

(** The counters of the prediction comparison of [get_analytics]. *)
Record tally : Type := {
  matches : Z;
  ai_higher : Z;
  ai_lower : Z;
  total_with_prediction : Z
}.

(** [i > f] for an integer and a float: exact comparison, false on NaN. *)
Definition int_gt_float (i : Z) (f : spec_float) : bool :=
  match f with
  | S754_zero _ => 0 <? i
  | S754_infinity negative => negative
  | S754_nan => false
  | S754_finite s m e =>
      let v := if s then Z.neg m else Z.pos m in
      if 0 <=? e then v * 2 ^ e <? i else v <? i * 2 ^ (- e)
  end.

(** [predicted > actual] for an integer [predicted] and the value
    [s.get("rating")]: a [TypeError] unless [actual] is a number. *)
Definition int_gt (predicted : Z) (actual : option json) : res bool :=
  match actual with
  | Some (JInt z) => Ok (z <? predicted)
  | Some (JBool b) => Ok ((if b then 1 else 0) <? predicted)
  | Some (JFloat f) => Ok (int_gt_float predicted f)
  | _ => Raise TypeError
  end.

(** [actual == predicted] *)
Definition actual_eq (actual : option json) (predicted : Z) : bool :=
  match actual with Some v => eq_int v predicted | None => false end.

(** [isinstance(predicted, (int, float))] *)
Definition is_number (v : json) : bool :=
  match v with JInt _ | JBool _ | JFloat _ => true | _ => false end.

(** [sum(1 for r in ratings if r >= 4)] *)
Definition positive_reviews (ratings : list Z) : Z :=
  Z.of_nat (List.length (filter (fun r => 4 <=? r) ratings)).

(** [{str(i): ratings.count(i) for i in range(1, 6)}] on a list of
    integers. *)
Definition distribution (ratings : list Z) : list (str * Z) :=
  map (fun i => (dec i, Z.of_nat (count_occ Z.eq_dec ratings i))) [1; 2; 3; 4; 5].

Section Listing.

Variable py : runtime.

(** The validated record the endpoints send, and the constructor
    [AdminSubmission] applied to the keys of a record: [None] when the
    validation of the framework rejects the record. *)
Variable Admin : Type.
Variable AdminSubmission : dict -> option Admin.

(** The test of the rating filter on one record: [None] when [int] raises
    on a rating that is a string. *)
Definition rating_matches (rating : Z) (s : dict) : option bool :=
  match get (u "rating") s with
  | Some (JStr t) =>
      match int_of_str py t with
      | Ok z => Some (z =? rating)
      | Raise _ => None
      end
  | Some v => Some (eq_int v rating)
  | None => Some false
  end.

(** The loop of the rating filter. *)
Fixpoint filter_by_rating (rating : Z) (submissions : list dict)
  : option (list dict) :=
  match submissions with
  | [] => Some []
  | s :: r =>
      match rating_matches rating s with
      | None => None
      | Some keep =>
          match filter_by_rating rating r with
          | Some filtered => Some (if keep then s :: filtered else filtered)
          | None => None
          end
      end
  end.

(** [s.get("timestamp", "").startswith(date)]: [None] when the timestamp
    is not a string. *)
Definition timestamp_startswith (date : str) (s : dict) : option bool :=
  match get_or (u "timestamp") (JStr []) s with
  | JStr t => Some (startswith t date)
  | _ => None
  end.

(** The comprehension of the date filter. *)
Fixpoint filter_by_date (date : str) (submissions : list dict)
  : option (list dict) :=
  match submissions with
  | [] => Some []
  | s :: r =>
      match timestamp_startswith date s with
      | None => None
      | Some keep =>
          match filter_by_date date r with
          | Some filtered => Some (if keep then s :: filtered else filtered)
          | None => None
          end
      end
  end.

(** The two filters of [get_all_submissions], in its order: [None] when
    one of them raises. *)
Definition select_submissions (rating : option Z) (date : option str)
    (submissions : list dict) : option (list dict) :=
  match (match rating with
         | Some r => filter_by_rating r submissions
         | None => Some submissions
         end) with
  | None => None
  | Some by_rating =>
      match date with
      | Some (c :: d) => filter_by_date (c :: d) by_rating
      | _ => Some by_rating
      end
  end.

(** The comprehension that applies [AdminSubmission] to every record. *)
Fixpoint validate_all (submissions : list dict) : option (list Admin) :=
  match submissions with
  | [] => Some []
  | s :: r =>
      match AdminSubmission s, validate_all r with
      | Some a, Some l => Some (a :: l)
      | _, _ => None
      end
  end.

(** [get_all_submissions(rating, date)] *)
Definition get_all_submissions (rating : option Z) (date : option str)
    (st : store) : answer (list Admin) * store :=
  let (submissions, st') := load_submissions py st in
  match select_submissions rating date submissions with
  | Some selected =>
      match validate_all selected with
      | Some l => (Sent l, st')
      | None => (Status 500, st')
      end
  | None => (Status 500, st')
  end.

(** [get_submission(submission_id)] *)
Definition get_submission (submission_id : str) (st : store)
  : answer Admin * store :=
  let (submissions, st') := load_submissions py st in
  match find (has_id submission_id) submissions with
  | Some s =>
      match AdminSubmission s with
      | Some a => (Sent a, st')
      | None => (Status 500, st')
      end
  | None => (Status 404, st')
  end.

(** [get_submission_alias(submission_id)] *)
Definition get_submission_alias (submission_id : str) (st : store)
  : answer Admin * store :=
  get_submission submission_id st.

(** The loop of [get_analytics] that collects the ratings: a record
    without rating, or with one [int] rejects with a [ValueError] or a
    [TypeError], is skipped; another exception of [int] leaves the loop. *)
Fixpoint analytics_ratings (submissions : list dict) : res (list Z) :=
  match submissions with
  | [] => Ok []
  | s :: r =>
      match get (u "rating") s with
      | None | Some JNull => analytics_ratings r
      | Some rating =>
          match py_int py rating with
          | Ok rating_int =>
              rest <- analytics_ratings r ;;
              Ok (if (1 <=? rating_int) && (rating_int <=? 5)
                  then rating_int :: rest else rest)
          | Raise ValueError | Raise TypeError => analytics_ratings r
          | Raise e => Raise e
          end
      end
  end.

(** One round of the loop of the prediction comparison. *)
Definition compare_prediction (t : tally) (s : dict) : res tally :=
  let actual := get (u "rating") s in
  match get (u "predicted_stars") s with
  | Some predicted =>
      if is_number predicted then
        p <- py_int py predicted ;;
        if (1 <=? p) && (p <=? 5) then
          if actual_eq actual p then
            Ok {| matches := matches t + 1;
                  ai_higher := ai_higher t;
                  ai_lower := ai_lower t;
                  total_with_prediction := total_with_prediction t + 1 |}
          else
            higher <- int_gt p actual ;;
            if higher then
              Ok {| matches := matches t;
                    ai_higher := ai_higher t + 1;
                    ai_lower := ai_lower t;
                    total_with_prediction := total_with_prediction t + 1 |}
            else
              Ok {| matches := matches t;
                    ai_higher := ai_higher t;
                    ai_lower := ai_lower t + 1;
                    total_with_prediction := total_with_prediction t + 1 |}
        else Ok t
      else Ok t
  | None => Ok t
  end.

(** The loop of the prediction comparison, from the counters [t]. *)
Fixpoint prediction_comparison (submissions : list dict) (t : tally)
  : res tally :=
  match submissions with
  | [] => Ok t
  | s :: r => t' <- compare_prediction t s ;; prediction_comparison r t'
  end.

End Listing.

(** The counters at zero. *)
Definition no_tally : tally :=
  {| matches := 0; ai_higher := 0; ai_lower := 0; total_with_prediction := 0 |}.

(** A validation for the examples: a record passes when it has an [id]
    that is a string; the record itself is what is sent. *)
Definition example_admin (s : dict) : option dict :=
  match get (u "id") s with Some (JStr _) => Some s | _ => None end.

(** The keys of a keyed list never increase from one cell to a later one. *)
Definition keys_sorted (l : list (str * dict)) : Prop :=
  StronglySorted (fun a b => str_ltb (fst a) (fst b) = false) l.

(* ================================================================== *)
(** ** Users and registration *)
(* ================================================================== *)

(** The users file as [json.load] reads it: [None] when the file is
    missing, unreadable or not a JSON document. *)
Definition users_file : Type := option json.

(** [load_users()]: any exception, and any document that is not a list,
    gives the empty list. *)
Definition load_users (f : users_file) : list json :=
  match f with
  | Some (JArr users) => users
  | _ => []
  end.

(** What the file system does when [save_users] opens the file for writing
    and dumps the list: the dump succeeds, or an [OSError] is raised and
    the file is left as [left_behind] (the write is not atomic). *)
Record users_disk : Type := {
  dump_ok : bool;
  left_behind : users_file
}.

(** [save_users(users)]: the outcome and the file after the call. *)
Definition save_users (io : users_disk) (users : list json)
  : res unit * users_file :=
  if dump_ok io then (Ok tt, Some (JArr users))
  else (Raise OSError, left_behind io).

(** What the creation of one user reads from outside the module:
    [secrets.token_hex(8)], the salt [hash_password] draws (in hexadecimal)
    and the clock. *)
Record draw_user : Type := {
  token_hex : str;
  salt_hex : str;
  created_now : datetime
}.

(** [v == email] for the value [u.get("email")] returns ([None] when the
    key is absent) and a string. *)
Definition is_email (email : str) (v : option json) : bool :=
  match v with
  | Some (JStr e) => str_eqb e email
  | _ => false
  end.

(** [any(u.get("email") == email for u in users)]: [None] when an element
    that is not a [dict] is reached before a match ([AttributeError]). *)
Fixpoint email_registered (email : str) (users : list json) : option bool :=
  match users with
  | [] => Some false
  | JObj d :: rest =>
      if is_email email (get (u "email") d) then Some true
      else email_registered email rest
  | _ :: _ => None
  end.

(** [{u.get("email") for u in users}], as the list of its elements: [None]
    when an element is not a [dict] ([AttributeError]) or an email is a
    list or a [dict] ([TypeError]: unhashable). *)
Fixpoint existing_emails (users : list json) : option (list (option json)) :=
  match users with
  | [] => Some []
  | JObj d :: rest =>
      match get (u "email") d with
      | Some (JArr _) | Some (JObj _) => None
      | e =>
          match existing_emails rest with
          | Some emails => Some (e :: emails)
          | None => None
          end
      end
  | _ :: _ => None
  end.

(** One entry of [defaults] in [ensure_default_users]. *)
Record default_user : Type := {
  default_username : str;
  default_email : str;
  default_password : str;
  default_role : str
}.

Definition defaults : list default_user :=
  [ {| default_username := u "admin"; default_email := u "admin@gmail.com";
       default_password := u "Admin@123"; default_role := u "admin" |};
    {| default_username := u "user"; default_email := u "user@gmail.com";
       default_password := u "User@123"; default_role := u "user" |} ].

(** The request body [AuthRegisterRequest], as validated by the framework. *)
Record AuthRegisterRequest : Type := {
  reg_username : str;
  reg_email : str;
  reg_password : str;
  reg_confirm_password : str
}.

Record AuthUserPublic : Type := {
  public_username : str;
  public_email : str;
  public_role : str
}.

Record AuthResponse : Type := {
  access_token : str;
  user : AuthUserPublic
}.

(** What one call of [register] reads from outside the module: the draws
    for the new user, [int((datetime.now() + timedelta(days=30)).timestamp())]
    and the file system's answer to the write. *)
Record registration : Type := {
  drawn : draw_user;
  expiry : Z;
  users_io : users_disk
}.

(** What one run of [ensure_default_users] reads from outside the module:
    the draws for each entry of [defaults] (used only for an entry that is
    added) and the file system's answer to the write. *)
Record startup : Type := {
  default_draw : default_user -> draw_user;
  startup_io : users_disk
}.

Section Users.

(** [hashlib.pbkdf2_hmac("sha256", password, salt, 120_000).hex()], from
    the password and the salt in hexadecimal, and [create_access_token]. *)
Variable pbkdf2_hmac_hex : str -> str -> str.
Variable create_access_token : dict -> str.

(** The dictionary that [register] and [ensure_default_users] append. *)
Definition new_user (username email password role : str) (d : draw_user)
  : dict :=
  [ (u "id", JStr (u "usr_" ++ token_hex d));
    (u "username", JStr username);
    (u "email", JStr email);
    (u "password_salt", JStr (salt_hex d));
    (u "password_hash", JStr (pbkdf2_hmac_hex password (salt_hex d)));
    (u "role", JStr role);
    (u "created_at", JStr (isoformat (created_now d))) ].

(** [register(req)]: the answer ([None] when an exception that is not an
    [HTTPException] leaves the handler) and the users file after the
    call. *)
Definition register (w : registration) (req : AuthRegisterRequest)
    (f : users_file) : option (answer AuthResponse) * users_file :=
  if negb (str_eqb (reg_password req) (reg_confirm_password req))
  then (Some (Status 400), f)
  else
    let users := load_users f in
    match email_registered (reg_email req) users with
    | None => (None, f)
    | Some true => (Some (Status 400), f)
    | Some false =>
        let user_dict := new_user (reg_username req) (reg_email req)
                       (reg_password req) (u "user") (drawn w) in
        match save_users (users_io w) (users ++ [JObj user_dict]) with
        | (Raise _, f') => (None, f')
        | (Ok _, f') =>
            let payload :=
              [ (u "sub", get_or (u "id") JNull user_dict);
                (u "username", get_or (u "username") JNull user_dict);
                (u "email", get_or (u "email") JNull user_dict);
                (u "role", get_or (u "role") JNull user_dict);
                (u "exp", JInt (expiry w)) ] in
            (Some (Sent {| access_token := create_access_token payload;
                           user := {| public_username := reg_username req;
                                      public_email := reg_email req;
                                      public_role := u "user" |} |}), f')
        end
    end.

(** One round of the loop of [ensure_default_users]: the list and the
    [changed] flag after the entry [d] has been looked at. *)
Definition add_default (emails : list (option json))
    (acc : list json * bool) (entry : default_user * draw_user)
  : list json * bool :=
  let (d, dr) := entry in
  if existsb (is_email (default_email d)) emails then acc
  else (fst acc ++ [JObj (new_user (default_username d) (default_email d)
                            (default_password d) (default_role d) dr)],
        true).

(** [ensure_default_users()], which runs when the module is loaded:
    whether it returns ([None] when an exception leaves it) and the users
    file after the run. *)
Definition ensure_default_users (w : startup) (f : users_file)
  : option unit * users_file :=
  let users := load_users f in
  match existing_emails users with
  | None => (None, f)
  | Some emails =>
      let (users', changed) :=
        fold_left (add_default emails)
                  (map (fun d => (d, default_draw w d)) defaults)
                  (users, false) in
      if changed
      then match save_users (startup_io w) users' with
           | (Ok _, f') => (Some tt, f')
           | (Raise _, f') => (None, f')
           end
      else (Some tt, f)
  end.

End Users.

(** The emails of the users that are dictionaries with a string under
    [email], in the order of the list. *)
Fixpoint registered_emails (users : list json) : list str :=
  match users with
  | [] => []
  | JObj d :: rest =>
      match get (u "email") d with
      | Some (JStr e) => e :: registered_emails rest
      | _ => registered_emails rest
      end
  | _ :: rest => registered_emails rest
  end.

(** An example of the outside of one registration and of one start. *)
Definition example_draw : draw_user :=
  {| token_hex := u "00112233aabbccdd"; salt_hex := u "0f0e0d0c";
     created_now := new_year_ten |}.

Definition example_registration : registration :=
  {| drawn := example_draw; expiry := 1800000000;
     users_io := {| dump_ok := true; left_behind := None |} |}.

Definition example_startup : startup :=
  {| default_draw := fun _ => example_draw;
     startup_io := {| dump_ok := true; left_behind := None |} |}.

Definition example_pbkdf2 (password salt : str) : str := salt ++ password.

Definition example_token (payload : dict) : str :=
  match get (u "sub") payload with Some (JStr s) => s | _ => [] end.

Definition ada : AuthRegisterRequest :=
  {| reg_username := u "ada"; reg_email := u "ada@example.org";
     reg_password := u "secret1"; reg_confirm_password := u "secret1" |}.

(** Records as a file edited by hand may hold them: the rating is there,
    as the string ["5"] or as [null]. *)
Definition quoted : dict :=
  [ (u "id", JStr (u "sub_20240104100000_4"));
    (u "rating", JStr (u "5"));
    (u "timestamp", JStr (u "2024-01-04T10:00:00")) ].

Definition nulled : dict :=
  [ (u "id", JStr (u "sub_20240105100000_5"));
    (u "rating", JNull);
    (u "timestamp", JStr (u "2024-01-05T10:00:00")) ].

(** A second record under the id of [older], made a day later. *)
Definition twin : dict :=
  [ (u "id", JStr (u "sub_20240101100000_7"));
    (u "rating", JInt 5);
    (u "timestamp", JStr (u "2024-01-02T10:00:00")) ].

(* ================================================================== *)
(** * Properties *)
(* ================================================================== *)

(** ** Text *)

Lemma forallb_rev_eq {A} (f : A -> bool) (l : list A) :
  forallb f (rev l) = forallb f l.
Proof.
  induction l as [|a l IH]; simpl; [reflexivity|].
  rewrite forallb_app, IH; simpl.
  rewrite andb_true_r. apply andb_comm.
Qed.

Lemma lstrip_blank s : forallb isspace s = true -> lstrip s = [].
Proof.
  induction s as [|c r IH]; simpl; [reflexivity|].
  intros H. apply andb_true_iff in H as [Hc Hr].
  rewrite Hc. auto.
Qed.

Lemma lstrip_head s c r : lstrip s = c :: r -> isspace c = false.
Proof.
  induction s as [|a s IH]; simpl; [discriminate|].
  destruct (isspace a) eqn:E; [exact IH|].
  intros H. injection H as <- _. exact E.
Qed.

Lemma lstrip_nil s : lstrip s = [] -> forallb isspace s = true.
Proof.
  induction s as [|a s IH]; simpl; [reflexivity|].
  destruct (isspace a); [exact IH | discriminate].
Qed.

Lemma strip_blank s : forallb isspace s = true -> strip s = [].
Proof.
  intros H. unfold strip, rstrip. rewrite (lstrip_blank s H). reflexivity.
Qed.

Lemma strip_nil s : strip s = [] -> forallb isspace s = true.
Proof.
  unfold strip, rstrip. intros H.
  apply (f_equal (@rev N)) in H. rewrite rev_involutive in H. simpl in H.
  apply lstrip_nil in H. rewrite forallb_rev_eq in H.
  destruct (lstrip s) as [|c r] eqn:E.
  - apply lstrip_nil, E.
  - apply lstrip_head in E. simpl in H. rewrite E in H. discriminate.
Qed.

Lemma isspace_not_upper c :
  isspace c = true -> ((65 <=? c) && (c <=? 90))%N = false.
Proof.
  intros H. destruct ((65 <=? c) && (c <=? 90))%N eqn:E; [|reflexivity].
  exfalso. unfold isspace in H.
  rewrite ?orb_true_iff, ?andb_true_iff, ?N.leb_le, ?N.eqb_eq in *. lia.
Qed.

Lemma lower_from_blank py s i rest :
  forallb isspace rest = true -> lower_from py s i rest = rest.
Proof.
  revert i. induction rest as [|c r IH]; intros i H; simpl; [reflexivity|].
  simpl in H. apply andb_true_iff in H as [Hc Hr].
  unfold lower_at. rewrite (isspace_not_upper c Hc), Hc, orb_true_r.
  simpl. f_equal. apply IH, Hr.
Qed.

Lemma lower_blank py s : forallb isspace s = true -> lower py s = s.
Proof. apply lower_from_blank. Qed.

Lemma contains_In c w t : contains (c :: w) t = true -> In c t.
Proof.
  induction t as [|a t IH]; simpl; [discriminate|].
  intros H. apply orb_true_iff in H as [H|H].
  - apply andb_true_iff in H as [H _]. apply N.eqb_eq in H. now left.
  - right. auto.
Qed.

Lemma blank_contains t c w :
  forallb isspace t = true -> isspace c = false -> contains (c :: w) t = false.
Proof.
  intros Ht Hc. destruct (contains (c :: w) t) eqn:E; [|reflexivity].
  apply contains_In in E.
  rewrite forallb_forall in Ht. rewrite (Ht c E) in Hc. discriminate.
Qed.

(** ** The sentiment heuristic *)

Lemma scan_blank words delta t sc :
  forallb keyword_ok words = true -> forallb isspace t = true ->
  scan words delta t sc = sc.
Proof.
  unfold scan. revert sc.
  induction words as [|w ws IH]; intros sc Hw Ht; simpl; [reflexivity|].
  simpl in Hw. apply andb_true_iff in Hw as [Hk Hws].
  destruct w as [|c w]; [discriminate|]. simpl in Hk.
  apply negb_true_iff in Hk.
  rewrite (blank_contains t c w Ht Hk). auto.
Qed.

Lemma keyword_score_blank t : forallb isspace t = true -> keyword_score t = 0.
Proof.
  intros H. unfold keyword_score.
  rewrite !scan_blank; auto.
Qed.

Lemma stars_of_score_low score base : score <= -2 -> stars_of_score score base = 1.
Proof.
  intros H. unfold stars_of_score. split_ifs;
    rewrite ?Z.leb_le, ?Z.leb_gt, ?Z.eqb_eq, ?Z.eqb_neq in *;
    try lia; reflexivity.
Qed.

Lemma stars_of_score_high score base : 4 <= score -> stars_of_score score base = 5.
Proof.
  intros H. unfold stars_of_score.
  destruct (4 <=? score) eqn:E; [reflexivity|].
  apply Z.leb_gt in E. lia.
Qed.

(** C5: on a text that is empty or white space only, the heuristic returns
    a rating in 1..5 unchanged, without scoring keywords, and returns [None]
    when [int(rating)] raises or falls outside 1..5. *)
Theorem heuristic_blank_text py review_text :
  forallb isspace review_text = true ->
  (forall r, 1 <= r <= 5 ->
     _predict_stars_from_text_heuristic py (JInt r) review_text = Some r) /\
  (forall rating,
     (forall r, py_int py rating = Ok r -> r < 1 \/ 5 < r) ->
     _predict_stars_from_text_heuristic py rating review_text = None).
Proof.
  intros Hblank.
  assert (Hstrip : strip (lower py review_text) = []).
  { rewrite lower_blank by exact Hblank. apply strip_blank, Hblank. }
  split.
  - intros r Hr. unfold _predict_stars_from_text_heuristic.
    rewrite Hstrip. simpl.
    destruct (Z.leb_spec 1 r); [|lia].
    destruct (Z.leb_spec r 5); [|lia]. reflexivity.
  - intros rating Hout. unfold _predict_stars_from_text_heuristic.
    rewrite Hstrip. destruct (py_int py rating) as [r|e]; [|reflexivity].
    destruct (Hout r eq_refl) as [H|H].
    + destruct (Z.leb_spec 1 r); [lia|]. reflexivity.
    + destruct (Z.leb_spec r 5); [lia|]. now rewrite andb_false_r.
Qed.

Lemma heuristic_blank_text_witness :
  forallb isspace (u "  ") = true /\
  _predict_stars_from_text_heuristic example_runtime (JInt 4) (u "  ") = Some 4 /\
  _predict_stars_from_text_heuristic example_runtime (JInt 9) (u "  ") = None /\
  _predict_stars_from_text_heuristic example_runtime JNull (u "  ") = None.
Proof.
  destruct (heuristic_blank_text example_runtime (u "  ") eq_refl) as [H1 H2].
  split; [reflexivity|]. split; [apply H1; lia|]. split.
  - apply H2. intros r H. injection H as <-. right. lia.
  - apply H2. intros r H. discriminate H.
Defined.

(** C6: whatever the rating, a text whose keyword score is at most -2 gets
    1 star and a text whose keyword score is at least 4 gets 5 stars. *)
Theorem heuristic_extreme_scores py rating review_text :
  (keyword_score (lower py review_text) <= -2 ->
   _predict_stars_from_text_heuristic py rating review_text = Some 1) /\
  (4 <= keyword_score (lower py review_text) ->
   _predict_stars_from_text_heuristic py rating review_text = Some 5).
Proof.
  unfold _predict_stars_from_text_heuristic.
  destruct (strip (lower py review_text)) as [|c r] eqn:E.
  - apply strip_nil in E. rewrite (keyword_score_blank _ E). split; lia.
  - split; intros H.
    + now rewrite stars_of_score_low.
    + now rewrite stars_of_score_high.
Qed.

Lemma heuristic_extreme_scores_witness :
  keyword_score (lower example_runtime (u "Terrible and AWFUL")) <= -2 /\
  _predict_stars_from_text_heuristic example_runtime (JInt 5)
    (u "Terrible and AWFUL") = Some 1 /\
  4 <= keyword_score (lower example_runtime (u "Amazing, excellent!")) /\
  _predict_stars_from_text_heuristic example_runtime (JInt 1)
    (u "Amazing, excellent!") = Some 5.
Proof.
  assert (H1 : keyword_score (lower example_runtime (u "Terrible and AWFUL")) <= -2)
    by (vm_compute; discriminate).
  assert (H2 : 4 <= keyword_score (lower example_runtime (u "Amazing, excellent!")))
    by (vm_compute; discriminate).
  split; [exact H1|]. split.
  - exact (proj1 (heuristic_extreme_scores example_runtime (JInt 5) _) H1).
  - split; [exact H2|].
    exact (proj2 (heuristic_extreme_scores example_runtime (JInt 1) _) H2).
Defined.

(** ** Words: [split], [join] and [strip] *)

Lemma split_from_app_word cur w rest :
  spacefree w = true -> split_from cur (w ++ rest) = split_from (cur ++ w) rest.
Proof.
  revert cur. induction w as [|a w IH]; intros cur H; simpl.
  - now rewrite app_nil_r.
  - simpl in H. apply andb_true_iff in H as [Ha Hw].
    apply negb_true_iff in Ha. rewrite Ha, (IH _ Hw), <- app_assoc.
    reflexivity.
Qed.

Lemma split_from_blank cur ws :
  forallb isspace ws = true ->
  split_from cur ws = match cur with [] => [] | _ => [cur] end.
Proof.
  induction ws as [|c r IH] in cur |- *; intros H; simpl; [reflexivity|].
  simpl in H. apply andb_true_iff in H as [Hc Hr]. rewrite Hc.
  destruct cur; rewrite (IH [] Hr); reflexivity.
Qed.

Lemma split_from_trailing cur s ws :
  forallb isspace ws = true -> split_from cur (s ++ ws) = split_from cur s.
Proof.
  intros H. induction s as [|c r IH] in cur |- *; simpl.
  - apply split_from_blank, H.
  - destruct (isspace c); [destruct cur|]; now rewrite IH.
Qed.

Lemma split_from_words cur s :
  spacefree cur = true -> Forall word_ok (split_from cur s).
Proof.
  induction s as [|c r IH] in cur |- *; intros H; simpl.
  - destruct cur; constructor; [split; [discriminate | exact H] | constructor].
  - destruct (isspace c) eqn:E.
    + destruct cur.
      * apply IH. reflexivity.
      * constructor; [split; [discriminate | exact H] | apply IH; reflexivity].
    + apply IH. unfold spacefree in *. rewrite forallb_app, H. simpl.
      now rewrite E.
Qed.

Lemma split_words s : Forall word_ok (split s).
Proof. apply split_from_words. reflexivity. Qed.

Lemma split_lstrip s : split (lstrip s) = split s.
Proof.
  unfold split. induction s as [|c r IH]; simpl; [reflexivity|].
  destruct (isspace c) eqn:E; [exact IH|]. simpl. now rewrite E.
Qed.

Lemma lstrip_decomp s :
  exists ws, s = ws ++ lstrip s /\ forallb isspace ws = true.
Proof.
  induction s as [|c r (ws & E & H)]; simpl.
  - now exists [].
  - destruct (isspace c) eqn:Ec.
    + exists (c :: ws). simpl. rewrite Ec, H. split; [now f_equal | reflexivity].
    + now exists [].
Qed.

Lemma rstrip_decomp s :
  exists ws, s = rstrip s ++ ws /\ forallb isspace ws = true.
Proof.
  destruct (lstrip_decomp (rev s)) as (ws & E & H).
  exists (rev ws). split.
  - unfold rstrip. rewrite <- rev_app_distr, <- E. symmetry. apply rev_involutive.
  - now rewrite forallb_rev_eq.
Qed.

Lemma split_rstrip s : split (rstrip s) = split s.
Proof.
  destruct (rstrip_decomp s) as (ws & E & H). unfold split.
  rewrite <- (split_from_trailing [] (rstrip s) ws H). now rewrite <- E.
Qed.

Lemma split_strip s : split (strip s) = split s.
Proof. unfold strip. now rewrite split_rstrip, split_lstrip. Qed.

Lemma join_cons2 sep w w2 r :
  join sep (w :: w2 :: r) = w ++ sep ++ join sep (w2 :: r).
Proof. reflexivity. Qed.

Lemma split_join ws : Forall word_ok ws -> split (join (u " ") ws) = ws.
Proof.
  induction 1 as [|w ws [Hne Hw] Hws IH]; [reflexivity|].
  destruct ws as [|w2 r].
  - simpl. unfold split. rewrite <- (app_nil_r w) at 1.
    rewrite split_from_app_word by exact Hw. simpl.
    destruct w; [contradiction|reflexivity].
  - rewrite join_cons2. unfold split in *.
    rewrite split_from_app_word by exact Hw.
    remember (join (u " ") (w2 :: r)) as tail eqn:Etail.
    change (u " ") with [32%N]. simpl.
    destruct w; [contradiction|]. now rewrite IH.
Qed.

Lemma lstrip_hd_ok s : hd_ok s -> lstrip s = s.
Proof. destruct s; simpl; [reflexivity|]. now intros ->. Qed.

Lemma strip_id s : hd_ok s -> hd_ok (rev s) -> strip s = s.
Proof.
  intros H1 H2. unfold strip, rstrip.
  rewrite (lstrip_hd_ok s H1), (lstrip_hd_ok _ H2). apply rev_involutive.
Qed.

Lemma spacefree_hd_ok w : spacefree w = true -> hd_ok w.
Proof.
  destruct w; simpl; [trivial|]. intros H.
  apply andb_true_iff in H as [H _]. now apply negb_true_iff.
Qed.

Lemma hd_ok_app a b : a <> [] -> hd_ok a -> hd_ok (a ++ b).
Proof. destruct a; [contradiction|]. auto. Qed.

Lemma join_nonempty sep w r : w <> [] -> join sep (w :: r) <> [].
Proof.
  intros H. destruct w; [contradiction|]. destruct r; discriminate.
Qed.

Lemma join_hd_ok sep ws : Forall word_ok ws -> hd_ok (join sep ws).
Proof.
  intros H. destruct H as [|w ws [Hne Hw] Hws]; [exact I|].
  destruct ws.
  - apply spacefree_hd_ok, Hw.
  - rewrite join_cons2. apply hd_ok_app; [exact Hne | apply spacefree_hd_ok, Hw].
Qed.

Lemma join_rev_hd_ok sep ws : Forall word_ok ws -> hd_ok (rev (join sep ws)).
Proof.
  induction 1 as [|w ws [Hne Hw] Hws IH]; [exact I|].
  assert (Hrev : hd_ok (rev w)).
  { apply spacefree_hd_ok. unfold spacefree. now rewrite forallb_rev_eq. }
  destruct ws as [|w2 r]; [exact Hrev|].
  rewrite join_cons2, !rev_app_distr, <- app_assoc.
  apply hd_ok_app; [|exact IH].
  intros E. apply (f_equal (@rev N)) in E. rewrite rev_involutive in E.
  inversion Hws as [|? ? [Hne2 _] _]; subst.
  now apply (join_nonempty sep w2 r Hne2).
Qed.

Lemma strip_join ws : Forall word_ok ws -> strip (join (u " ") ws) = join (u " ") ws.
Proof.
  intros H. apply strip_id; [apply join_hd_ok | apply join_rev_hd_ok]; exact H.
Qed.

Lemma Forall_firstn {A} (P : A -> Prop) n (l : list A) :
  Forall P l -> Forall P (firstn n l).
Proof.
  intros H. revert n. induction H; intros [|n]; simpl; constructor; auto.
Qed.

(** ** The instant pack *)

Lemma snippet_of_words review_text :
  snippet_of review_text =
  match first_words review_text with
  | [] => []
  | _ => with_ellipsis (first_words review_text)
  end.
Proof.
  unfold snippet_of, first_words, with_ellipsis.
  rewrite split_strip, strip_join by apply Forall_firstn, split_words.
  now destruct (join (u " ") (firstn 18 (split review_text))).
Qed.

Lemma with_ellipsis_nonempty body : body <> [] -> with_ellipsis body <> [].
Proof.
  unfold with_ellipsis. intros H.
  destruct (ends_terminal body); [exact H|].
  destruct body; [contradiction|discriminate].
Qed.

Lemma str_or_nonempty a b : a <> [] -> str_or a b = a.
Proof. destruct a; [contradiction|reflexivity]. Qed.

Lemma embedded_snippet body placeholder :
  str_or (match body with [] => [] | _ => with_ellipsis body end) placeholder =
  match body with
  | [] => placeholder
  | _ => if ends_terminal body then body else body ++ u "..."
  end.
Proof.
  destruct body as [|c b]; [reflexivity|].
  apply str_or_nonempty, with_ellipsis_nonempty. discriminate.
Qed.

(** C7 (amended): the admin summary of the instant pack embeds, between
    two pairs of asterisks, the first 18 or fewer words of the review text
    joined by single spaces, followed by three dots exactly when that
    snippet is not empty and does not end in [.], [!] or [?] (whether or
    not words were left out); when the text has no word it embeds a fixed
    placeholder. *)
Theorem instant_summary_snippet py rating review_text username :
  let words := firstn 18 (split review_text) in
  let body := join (u " ") words in
  (List.length words <= 18)%nat /\
  split body = words /\
  exists pre placeholder,
    In placeholder [u "no clear details provided"; u "no extra details provided"] /\
    ai_summary (_instant_ai_pack py rating review_text username) =
    pre ++ u "**" ++
    match body with
    | [] => placeholder
    | _ => if ends_terminal body then body else body ++ u "..."
    end ++ u "**.".
Proof.
  intros words body. split; [apply firstn_le_length|].
  split; [apply split_join, Forall_firstn, split_words|].
  unfold _instant_ai_pack. rewrite snippet_of_words.
  change (first_words review_text) with body.
  set (r := py_str py rating).
  destruct (effective_rating py rating review_text <=? 2);
    [|destruct (effective_rating py rating review_text =? 3)];
    cbn [ai_summary].
  - exists (u "Customer gave a " ++ r ++
            u "-star rating and the review feels **negative**. Key issue described: "),
           (u "no clear details provided").
    split; [now left|].
    unfold low_summary. rewrite embedded_snippet, <- !app_assoc. reflexivity.
  - exists (u "Customer gave a " ++ r ++
            u "-star rating and the review sounds **mixed/neutral**. Main points: "),
           (u "no clear details provided").
    split; [now left|].
    unfold mid_summary. rewrite embedded_snippet, <- !app_assoc. reflexivity.
  - exists (u "Customer gave a " ++ r ++
            u "-star rating and the review feels **positive**. Key praise: "),
           (u "no extra details provided").
    split; [now right; left|].
    unfold high_summary. rewrite embedded_snippet, <- !app_assoc. reflexivity.
Qed.

(** C7 as stated fails: a two-word review, not truncated and without
    terminal punctuation, is embedded with three dots appended. *)
Lemma instant_summary_ellipsis_untruncated :
  split (u "Good food") = [u "Good"; u "food"] /\
  ai_summary (_instant_ai_pack example_runtime (JInt 4) (u "Good food") None) =
  u "Customer gave a 4-star rating and the review feels **positive**. Key praise: **Good food...**.".
Proof. split; vm_compute; reflexivity. Qed.



(** ** The brace pattern *)

Lemma close_cons x s :
  match_here [Chr 125] (x :: s) = if (x =? 125)%N then Some 1%nat else None.
Proof. reflexivity. Qed.

Lemma star_cons k x s :
  star k (x :: s) =
  match star k s with Some n => Some (S n) | None => k (x :: s) end.
Proof. reflexivity. Qed.

Lemma star_close_none s :
  star (match_here [Chr 125]) s = None -> ~ In 125%N s.
Proof.
  induction s as [|x s IH]; [intros _ []|].
  rewrite star_cons, close_cons.
  destruct (star (match_here [Chr 125]) s); [discriminate|].
  destruct (x =? 125)%N eqn:Ex; [discriminate|].
  intros _ [H|H]; [|now apply IH].
  subst. now rewrite N.eqb_refl in Ex.
Qed.

Lemma star_close_some s n :
  star (match_here [Chr 125]) s = Some n ->
  exists mid post,
    s = mid ++ 125%N :: post /\ n = S (List.length mid) /\ ~ In 125%N post.
Proof.
  induction s as [|x s IH] in n |- *; [discriminate|].
  rewrite star_cons, close_cons.
  destruct (star (match_here [Chr 125]) s) as [m|] eqn:E.
  - intros [= <-]. destruct (IH m eq_refl) as (mid & post & -> & -> & H).
    now exists (x :: mid), post.
  - destruct (x =? 125)%N eqn:Ex; [|discriminate].
    intros [= <-]. apply N.eqb_eq in Ex. subst.
    exists [], s. repeat split. now apply star_close_none.
Qed.

Lemma star_close_in s :
  In 125%N s -> star (match_here [Chr 125]) s <> None.
Proof.
  induction s as [|x s IH]; [intros []|].
  rewrite star_cons, close_cons.
  intros H. destruct (star (match_here [Chr 125]) s); [discriminate|].
  destruct H as [->|H]; [simpl; discriminate | now elim IH].
Qed.

Lemma match_brace_cons x s :
  match_here brace_pattern (x :: s) =
  if (x =? 123)%N then option_map S (star (match_here [Chr 125]) s) else None.
Proof. reflexivity. Qed.

Lemma firstn_through mid (c : N) post :
  firstn (S (List.length mid)) (mid ++ c :: post) = mid ++ [c].
Proof. induction mid as [|a mid IH]; [reflexivity|]. simpl in *. now rewrite IH. Qed.

Lemma match_brace_some s n :
  match_here brace_pattern s = Some n ->
  exists mid post,
    s = 123%N :: mid ++ 125%N :: post /\
    firstn n s = 123%N :: mid ++ [125%N] /\ ~ In 125%N post.
Proof.
  destruct s as [|x s]; [discriminate|].
  rewrite match_brace_cons.
  destruct (x =? 123)%N eqn:Ex; [|discriminate].
  apply N.eqb_eq in Ex. subst x.
  destruct (star (match_here [Chr 125]) s) as [m|] eqn:E; [|discriminate].
  simpl option_map. intros [= <-].
  destruct (star_close_some s m E) as (mid & post & -> & -> & H).
  exists mid, post. repeat split; [|exact H].
  change (firstn (S (S (List.length mid))) (123%N :: mid ++ 125%N :: post))
    with (123%N :: firstn (S (List.length mid)) (mid ++ 125%N :: post)).
  now rewrite firstn_through.
Qed.

Lemma re_search_unfold p s :
  re_search p s =
  match match_here p s with
  | Some n => Some (firstn n s)
  | None => match s with [] => None | _ :: s' => re_search p s' end
  end.
Proof. destruct s; reflexivity. Qed.

(** What [re.search] finds for the brace pattern is the span from the first
    opening brace to the last closing brace. *)
Lemma re_search_brace s candidate :
  re_search brace_pattern s = Some candidate -> first_to_last_brace s candidate.
Proof.
  induction s as [|x s IH]; rewrite re_search_unfold.
  - discriminate.
  - destruct (match_here brace_pattern (x :: s)) as [n|] eqn:E.
    + intros [= <-].
      destruct (match_brace_some _ _ E) as (mid & post & Es & Ec & H).
      exists [], mid, post. rewrite Ec, Es. simpl.
      rewrite <- app_assoc. repeat split; auto.
    + intros Hs. destruct (IH Hs) as (pre & mid & post & Es & Ec & Hpre & Hpost).
      exists (x :: pre), mid, post. repeat split; [now rewrite Es | exact Ec | | exact Hpost].
      intros [Hx|Hin]; [|now apply Hpre].
      subst x. rewrite match_brace_cons, N.eqb_refl in E.
      destruct (star (match_here [Chr 125]) s) eqn:Estar; [discriminate|].
      apply star_close_none in Estar. apply Estar.
      rewrite Es, Ec. apply in_or_app. right. apply in_or_app. left.
      right. apply in_or_app. right. now left.
Qed.

(** And it finds one whenever a closing brace follows an opening one. *)
Lemma re_search_brace_none s :
  re_search brace_pattern s = None ->
  forall pre mid post, s <> pre ++ 123%N :: mid ++ 125%N :: post.
Proof.
  induction s as [|x s IH]; rewrite re_search_unfold;
    intros H pre mid post Es.
  - destruct pre; discriminate.
  - destruct (match_here brace_pattern (x :: s)) eqn:E; [discriminate|].
    destruct pre as [|y pre]; simpl in Es; injection Es as -> ->.
    + rewrite match_brace_cons, N.eqb_refl in E.
      destruct (star (match_here [Chr 125]) (mid ++ 125%N :: post)) eqn:Estar;
        [discriminate|].
      revert Estar. apply star_close_in, in_or_app. right. now left.
    + now apply (IH H pre mid post).
Qed.

(** C10: when the whole cleaned text parses as JSON and the value is not
    an object, [extract_json_strong] returns [None] and [json.loads] is not
    called a second time; a second call happens only after the first one
    raised, and its argument is the span from the first opening brace to
    the last closing brace of the cleaned text, whose parse decides the
    result. *)
Theorem extract_json_strong_fallback py raw :
  (forall parsed,
     json_loads py (strip raw) = Ok parsed -> as_dict parsed = None ->
     extract_json_strong py raw = None /\
     (List.length (snd (extract_json_strong_traced py raw)) <= 1)%nat) /\
  (forall candidate,
     nth_error (snd (extract_json_strong_traced py raw)) 1 = Some candidate ->
     (exists e, json_loads py (strip raw) = Raise e) /\
     first_to_last_brace (strip raw) candidate /\
     extract_json_strong py raw =
     match json_loads py candidate with
     | Ok parsed => as_dict parsed
     | Raise _ => None
     end).
Proof.
  unfold extract_json_strong, extract_json_strong_traced.
  destruct raw as [|c raw]; [split; [auto | discriminate]|].
  set (cleaned := strip (c :: raw)).
  destruct (json_loads py cleaned) as [parsed|e] eqn:E.
  - split; [|discriminate].
    intros parsed' [= <-] Hobj. simpl. auto.
  - split; [discriminate|].
    destruct (re_search brace_pattern cleaned) as [cand|] eqn:Es; [|discriminate].
    intros candidate [= <-]. split; [now exists e|].
    split; [now apply re_search_brace | reflexivity].
Qed.

Lemma extract_json_strong_fallback_witness :
  json_loads example_runtime (strip (u " [1, 2] ")) = Ok (JArr [JInt 1; JInt 2]) /\
  extract_json_strong example_runtime (u " [1, 2] ") = None /\
  nth_error (snd (extract_json_strong_traced example_runtime (u "Here: {} ok")))
    1 = Some (u "{}") /\
  first_to_last_brace (strip (u "Here: {} ok")) (u "{}").
Proof.
  split; [reflexivity|]. split.
  - exact (proj1 (proj1 (extract_json_strong_fallback example_runtime (u " [1, 2] "))
                    (JArr [JInt 1; JInt 2]) eq_refl eq_refl)).
  - split; [reflexivity|].
    exact (proj1 (proj2 (proj2 (extract_json_strong_fallback example_runtime
                                  (u "Here: {} ok")) (u "{}") eq_refl))).
Defined.

(** ** Dictionaries *)

Lemma str_eqb_spec a b : reflect (a = b) (str_eqb a b).
Proof. unfold str_eqb. destruct (list_eq_dec N.eq_dec a b); now constructor. Qed.

Lemma str_eqb_refl a : str_eqb a a = true.
Proof. now destruct (str_eqb_spec a a). Qed.

Lemma get_dict_set k k' v d :
  get k (dict_set k' v d) = if str_eqb k k' then Some v else get k d.
Proof.
  induction d as [|[k0 v0] d IH]; simpl; [reflexivity|].
  destruct (str_eqb_spec k' k0) as [->|Hne]; simpl.
  - now destruct (str_eqb_spec k k0).
  - rewrite IH. destruct (str_eqb_spec k k0) as [->|]; [|reflexivity].
    destruct (str_eqb_spec k0 k') as [->|]; [contradiction|reflexivity].
Qed.

Lemma get_absent k d : ~ In k (map fst d) -> get k d = None.
Proof.
  induction d as [|[k0 v0] d IH]; simpl; [reflexivity|].
  intros H. destruct (str_eqb_spec k k0) as [->|]; [|apply IH]; tauto.
Qed.

(** [{**s, **updates}] holds the value of [updates] under each of its
    keys and the value of [s] under every other key. *)
Lemma get_merge k s updates :
  dict_wf updates ->
  get k (merge s updates) =
  match get k updates with Some v => Some v | None => get k s end.
Proof.
  unfold merge, dict_wf.
  induction updates as [|[k0 v0] r IH] in s |- *; simpl; [reflexivity|].
  intros Hwf. inversion Hwf as [|? ? Hnotin Hr]; subst.
  rewrite (IH _ Hr), get_dict_set. simpl.
  destruct (str_eqb_spec k k0) as [->|]; [|reflexivity].
  now rewrite (get_absent k0 r Hnotin).
Qed.

(** ** The store *)

Lemma update_first_none submission_id updates l :
  existsb (has_id submission_id) l = false ->
  update_first submission_id updates l = None.
Proof.
  induction l as [|s l IH]; simpl; [reflexivity|].
  intros H. apply orb_false_iff in H as [Hs Hl].
  now rewrite Hs, (IH Hl).
Qed.

Lemma update_first_some submission_id updates pre s post :
  existsb (has_id submission_id) pre = false ->
  has_id submission_id s = true ->
  update_first submission_id updates (pre ++ s :: post) =
  Some (merge s updates, pre ++ merge s updates :: post).
Proof.
  intros Hpre Hs. induction pre as [|p pre IH]; simpl.
  - now rewrite Hs.
  - simpl in Hpre. apply orb_false_iff in Hpre as [Hp Hpre].
    now rewrite Hp, (IH Hpre).
Qed.

Lemma cache_hit_refl m data_file0 data f :
  mtime f = m ->
  cache_hit {| data_file := data_file0; cache_mtime := Some m; cache_data := data |} f
  = true.
Proof. intros <-. apply Z.eqb_refl. Qed.

Lemma load_data_file py st :
  data_file (snd (load_submissions py st)) = data_file st.
Proof.
  unfold load_submissions, _load_submissions_unlocked.
  destruct (data_file st) as [f|] eqn:E; [|exact E].
  destruct (cache_hit st f); [exact E|].
  destruct (parse_file py f); [reflexivity | exact E].
Qed.

(** Loading twice gives what loading once gives. *)
Lemma load_idempotent py st :
  load_submissions py (snd (load_submissions py st)) =
  load_submissions py st.
Proof.
  unfold load_submissions, _load_submissions_unlocked.
  destruct (data_file st) as [f|] eqn:E; cbn [snd]; [|now rewrite E].
  destruct (cache_hit st f) eqn:Eh; cbn [snd]; [now rewrite E, Eh|].
  destruct (parse_file py f) as [l|e] eqn:Ep; cbn [snd data_file].
  - now rewrite cache_hit_refl.
  - now rewrite E, Eh, Ep.
Qed.

(** After a write that succeeded and the refresh of the cache, a load is
    a cache hit and returns the list that was written. *)
Lemma load_after_write py io data st st2 :
  _atomic_write_json io data st = Ok st2 ->
  load_submissions py (refresh_cache data st2) = (data, refresh_cache data st2).
Proof.
  unfold _atomic_write_json. destruct (write_ok io); [|discriminate].
  intros [= <-]. unfold load_submissions, _load_submissions_unlocked.
  unfold refresh_cache. cbn [data_file mtime]. now rewrite cache_hit_refl.
Qed.

(** The read after an append: the list loaded before, then the new record
    (whatever its timestamp). *)
Lemma load_after_save py io submission st :
  write_ok io = true ->
  fst (save_submission py io submission st) = Some submission /\
  fst (load_submissions py (snd (save_submission py io submission st))) =
  fst (load_submissions py st) ++ [submission].
Proof.
  intros Hok. unfold save_submission.
  destruct (load_submissions py st) as [loaded st1].
  destruct (_atomic_write_json io (loaded ++ [submission]) st1) as [st2|e] eqn:E.
  - simpl. now rewrite (load_after_write py io _ _ _ E).
  - unfold _atomic_write_json in E. rewrite Hok in E. discriminate.
Qed.

(** C3: an update of an id the store holds returns the merged record,
    replaces the first record of that id by it and leaves every other
    record and every field the update does not name as it was; an update
    of an id the store does not hold returns [None], leaves the file alone
    and leaves what a load returns as it was. *)
Theorem update_submission_return_frame py io submission_id updates st :
  let loaded := fst (load_submissions py st) in
  let result := update_submission_return py io submission_id updates st in
  (forall pre s post,
     loaded = pre ++ s :: post ->
     existsb (has_id submission_id) pre = false ->
     has_id submission_id s = true ->
     write_ok io = true ->
     dict_wf updates ->
     fst result = Some (merge s updates) /\
     fst (load_submissions py (snd result)) = pre ++ merge s updates :: post /\
     data_file (snd result) =
     Some {| content := Some (JArr (map JObj (pre ++ merge s updates :: post)));
             mtime := stamp io |} /\
     (forall k, get k (merge s updates) =
                match get k updates with Some v => Some v | None => get k s end)) /\
  (existsb (has_id submission_id) loaded = false ->
     fst result = None /\
     data_file (snd result) = data_file st /\
     fst (load_submissions py (snd result)) = loaded).
Proof.
  intros loaded result. subst loaded result.
  unfold update_submission_return.
  pose proof (load_idempotent py st) as Hidem.
  pose proof (load_data_file py st) as Hfile.
  destruct (load_submissions py st) as [loaded st1]. simpl in *.
  split.
  - intros pre s post -> Hpre Hs Hok Hwf.
    rewrite (update_first_some _ _ _ _ _ Hpre Hs).
    destruct (_atomic_write_json io (pre ++ merge s updates :: post) st1)
      as [st2|e] eqn:E.
    + cbn [fst snd]. rewrite (load_after_write py io _ _ _ E). cbn [fst].
      split; [reflexivity|]. split; [reflexivity|].
      split; [|intros k; now apply get_merge].
      unfold _atomic_write_json in E. rewrite Hok in E.
      injection E as <-. reflexivity.
    + unfold _atomic_write_json in E. rewrite Hok in E. discriminate.
  - intros Habsent. rewrite (update_first_none _ _ _ Habsent). simpl.
    rewrite Hidem. auto.
Qed.

Lemma update_submission_return_frame_witness :
  let st := on_disk (records [older; newer]) 100 in
  let failed := [(u "status", JStr (u "failed"))] in
  let hit := update_submission_return example_runtime (disk_ok 200)
               (u "sub_20240101100000_7") failed st in
  let miss := update_submission_return example_runtime (disk_ok 200)
                (u "sub_0") failed st in
  fst (load_submissions example_runtime st) = [newer; older] /\
  fst hit = Some (merge older failed) /\
  fst (load_submissions example_runtime (snd hit)) = [newer; merge older failed] /\
  get (u "rating") (merge older failed) = Some (JInt 2) /\
  fst miss = None /\
  fst (load_submissions example_runtime (snd miss)) = [newer; older].
Proof.
  intros st failed hit miss.
  assert (Hwf : dict_wf failed).
  { repeat constructor. intros []. }
  destruct (update_submission_return_frame example_runtime (disk_ok 200)
              (u "sub_20240101100000_7") failed st) as [Hhit _].
  destruct (Hhit [newer] older [] eq_refl eq_refl eq_refl eq_refl Hwf)
    as (H1 & H2 & _ & H4).
  destruct (update_submission_return_frame example_runtime (disk_ok 200)
              (u "sub_0") failed st) as [_ Hmiss].
  destruct (Hmiss eq_refl) as (H5 & _ & H7).
  split; [reflexivity|]. split; [exact H1|]. split; [exact H2|].
  split; [exact (H4 (u "rating"))|]. split; [exact H5 | exact H7].
Defined.

(** A document that is neither an array nor an object with an array
    under [submissions] has no submission list. *)
Lemma submissions_of_other_document raw :
  (forall l, raw <> JArr l) ->
  (forall d l, raw = JObj d -> get (u "submissions") d <> Some (JArr l)) ->
  submissions_of_document raw = [].
Proof.
  intros Harr Hobj. destruct raw as [| | | | |l|d]; try reflexivity.
  - now elim (Harr l).
  - simpl. destruct (get (u "submissions") d) as [[| | | | |l|]|] eqn:E;
      try reflexivity.
    now elim (Hobj d l eq_refl).
Qed.

(** C4: when the file is read and its text is not well-formed JSON, or
    its top-level value is neither an array nor an object whose
    [submissions] entry is an array, the load returns the empty list; more
    generally any exception raised while the file is parsed and sorted
    ends in the empty list, not in an exception of the load. *)
Theorem load_malformed_is_empty py st f :
  data_file st = Some f ->
  cache_hit st f = false ->
  (content f = None \/
   (exists raw,
      content f = Some raw /\
      (forall l, raw <> JArr l) /\
      (forall d l, raw = JObj d -> get (u "submissions") d <> Some (JArr l))) \/
   (exists e, parse_file py f = Raise e)) ->
  fst (load_submissions py st) = [] /\
  data_file (snd (load_submissions py st)) = data_file st.
Proof.
  intros Hf Hmiss Hbad. split; [|apply load_data_file].
  unfold load_submissions, _load_submissions_unlocked.
  rewrite Hf, Hmiss.
  destruct Hbad as [Hc|[(raw & Hc & Harr & Hobj)|(e & He)]].
  - unfold parse_file. now rewrite Hc.
  - unfold parse_file, bind.
    now rewrite Hc, (submissions_of_other_document raw Harr Hobj).
  - now rewrite He.
Qed.

Lemma load_malformed_is_empty_witness :
  fst (load_submissions example_runtime (on_disk None 100)) = [] /\
  fst (load_submissions example_runtime
         (on_disk (Some (JObj [(u "items", JArr [JObj older])])) 100)) = [] /\
  fst (load_submissions example_runtime (on_disk (Some (JStr (u "oops"))) 100)) = [].
Proof.
  split; [|split].
  - exact (proj1 (load_malformed_is_empty example_runtime (on_disk None 100) _
                    eq_refl eq_refl (or_introl eq_refl))).
  - refine (proj1 (load_malformed_is_empty example_runtime (on_disk _ 100) _
                     eq_refl eq_refl (or_intror (or_introl _)))).
    eexists. split; [reflexivity|]. split; [discriminate|].
    intros d l [= <-]. discriminate.
  - refine (proj1 (load_malformed_is_empty example_runtime (on_disk _ 100) _
                     eq_refl eq_refl (or_intror (or_introl _)))).
    eexists. split; [reflexivity|]. split; discriminate.
Defined.

(** C1, on the code: a store whose file holds one record of 1 January;
    a record of 2 January is appended.  The append succeeds, and the load
    that follows (a cache hit) returns the older record first and the new
    one last, although a reader that parses the same file returns them
    newest first. *)
Theorem save_then_load_order :
  let st0 := on_disk (records [older]) 100 in
  let saved := save_submission example_runtime (disk_ok 200) newer st0 in
  fst saved = Some newer /\
  fst (load_submissions example_runtime (snd saved)) = [older; newer] /\
  str_ltb (u "2024-01-01T10:00:00") (u "2024-01-02T10:00:00") = true /\
  data_file (snd saved) = data_file (on_disk (records [older; newer]) 200) /\
  fst (load_submissions example_runtime (on_disk (records [older; newer]) 200))
  = [newer; older].
Proof. vm_compute. repeat split. Qed.

(** ** Submission ids *)

Lemma pad_length w n : List.length (pad w n) = w.
Proof.
  induction w as [|w IH] in n |- *; simpl; [reflexivity|].
  rewrite length_app, IH. simpl. lia.
Qed.

Lemma digit_inj a b :
  0 <= a < 10 -> 0 <= b < 10 -> digit a = digit b -> a = b.
Proof. unfold digit. lia. Qed.

Lemma pad_inj w n m :
  pad w n = pad w m -> n mod 10 ^ Z.of_nat w = m mod 10 ^ Z.of_nat w.
Proof.
  induction w as [|w IH] in n, m |- *; intros H.
  - now rewrite !Z.mod_1_r.
  - simpl in H. apply app_inj_tail in H as [Hhigh Hlow].
    apply IH in Hhigh.
    apply digit_inj in Hlow; try (apply Z.mod_pos_bound; lia).
    assert (Hpos : 0 < 10 ^ Z.of_nat w) by (apply Z.pow_pos_nonneg; lia).
    rewrite Nat2Z.inj_succ, Z.pow_succ_r by lia.
    rewrite !Z.rem_mul_r by (assumption || lia).
    now rewrite Hhigh, Hlow.
Qed.

Lemma pad_inj_range w n m :
  0 <= n < 10 ^ Z.of_nat w -> 0 <= m < 10 ^ Z.of_nat w ->
  pad w n = pad w m -> n = m.
Proof.
  intros Hn Hm H. apply pad_inj in H.
  now rewrite !Z.mod_small in H.
Qed.

Lemma app_inj_length {A} (a a' b b' : list A) :
  List.length a = List.length a' -> a ++ b = a' ++ b' -> a = a' /\ b = b'.
Proof.
  revert a'. induction a as [|x a IH]; intros [|y a'] Hlen H;
    try discriminate; [now split|].
  simpl in *. injection H as -> H. injection Hlen as Hlen.
  destruct (IH a' Hlen H) as [-> ->]. now split.
Qed.

Lemma strftime_compact_inj a b :
  datetime_wf a -> datetime_wf b ->
  strftime_compact a = strftime_compact b -> same_second a b.
Proof.
  intros (Hy & Hmo & Hd & Hh & Hmi & Hs & _) (Hy' & Hmo' & Hd' & Hh' & Hmi' & Hs' & _).
  unfold strftime_compact. intros H.
  repeat (apply app_inj_length in H as [? H]; [|now rewrite !pad_length]).
  unfold same_second.
  repeat split; [apply (pad_inj_range 4) | apply (pad_inj_range 2) ..];
    try assumption; change (10 ^ Z.of_nat 4) with 10000;
    change (10 ^ Z.of_nat 2) with 100; lia.
Qed.

(** Every number below 100 can be read back from its decimal form. *)
Lemma dec_read r : 0 <= r < 100 -> read_digits 0 (dec r) = (r, []).
Proof.
  intros Hr.
  assert (Hall : forallb (fun n => let z := Z.of_nat n in
                            match read_digits 0 (dec z) with
                            | (z', []) => z' =? z
                            | _ => false
                            end) (seq 0 100) = true) by (vm_compute; reflexivity).
  rewrite forallb_forall in Hall.
  specialize (Hall (Z.to_nat r)). rewrite Z2Nat.id in Hall by lia.
  cbv zeta in Hall.
  destruct (read_digits 0 (dec r)) as [z' [|c rest]].
  - f_equal. apply Z.eqb_eq, Hall, in_seq. lia.
  - discriminate Hall. apply in_seq. lia.
Qed.

Lemma dec_inj r1 r2 :
  0 <= r1 < 100 -> 0 <= r2 < 100 -> dec r1 = dec r2 -> r1 = r2.
Proof.
  intros H1 H2 H. apply dec_read in H1, H2.
  rewrite H, H2 in H1. now injection H1.
Qed.

Lemma submission_id_of_inj d1 r1 d2 r2 :
  datetime_wf d1 -> datetime_wf d2 -> 0 <= r1 < 100 -> 0 <= r2 < 100 ->
  submission_id_of d1 r1 = submission_id_of d2 r2 ->
  same_second d1 d2 /\ r1 = r2.
Proof.
  intros Hd1 Hd2 Hr1 Hr2. unfold submission_id_of. intros H.
  apply app_inv_head in H.
  apply app_inj_length in H as [Hs Hr].
  - split; [now apply strftime_compact_inj|].
    apply app_inv_head in Hr. now apply dec_inj.
  - unfold strftime_compact. now rewrite !length_app, !pad_length.
Qed.

Lemma submission_id_of_same d1 r d2 :
  same_second d1 d2 -> submission_id_of d1 r = submission_id_of d2 r.
Proof.
  intros (Hy & Hmo & Hd & Hh & Hmi & Hs).
  unfold submission_id_of, strftime_compact. now rewrite Hy, Hmo, Hd, Hh, Hmi, Hs.
Qed.

(** C8 (amended): the id of a new submission is built from the clock, to
    the second, and a draw below 100, and is not compared with the store.
    It equals the id of a stored record exactly when that record was made
    in the same second with the same draw, and differs from it otherwise. *)
Theorem submit_review_id_collides_iff py w payload st s d r :
  datetime_wf (clock_id w) -> 0 <= draw w < 100 ->
  datetime_wf d -> 0 <= r < 100 ->
  write_ok (io w) = true ->
  In s (fst (load_submissions py st)) ->
  get (u "id") s = Some (JStr (submission_id_of d r)) ->
  exists submission,
    fst (submit_review py w payload st) = Returns submission /\
    (get (u "id") submission = get (u "id") s <->
     same_second (clock_id w) d /\ draw w = r).
Proof.
  intros Hw Hdraw Hd Hr Hok _ Hid.
  exists (new_submission py w payload). split.
  - unfold submit_review.
    pose proof (load_after_save py (io w) (new_submission py w payload) st Hok)
      as [Hsaved _].
    destruct (save_submission py (io w) (new_submission py w payload) st)
      as [[x|] st']; [reflexivity | discriminate].
  - rewrite Hid.
    change (get (u "id") (new_submission py w payload))
      with (Some (JStr (submission_id_of (clock_id w) (draw w)))).
    split.
    + intros H. apply submission_id_of_inj; try assumption. congruence.
    + intros [Hsame <-]. do 2 f_equal. now apply submission_id_of_same.
Qed.

Lemma new_year_ten_wf : datetime_wf new_year_ten.
Proof. unfold datetime_wf. simpl. lia. Qed.

Lemma submit_review_id_collides_iff_witness :
  let st := on_disk (records [older]) 100 in
  get (u "id") older = Some (JStr (submission_id_of new_year_ten 7)) /\
  exists submission,
    fst (submit_review example_runtime (request new_year_ten 8 250 200) praise st)
    = Returns submission /\
    get (u "id") submission <> get (u "id") older.
Proof.
  intros st. split; [reflexivity|].
  destruct (submit_review_id_collides_iff example_runtime
              (request new_year_ten 8 250 200) praise st older new_year_ten 7
              new_year_ten_wf ltac:(simpl; lia) new_year_ten_wf ltac:(lia)
              eq_refl (or_introl eq_refl) eq_refl)
    as (submission & Hret & Hiff).
  exists submission. split; [exact Hret|].
  intros E. apply Hiff in E as [_ E]. discriminate E.
Defined.

(** C8 as stated fails: two submissions made in the same second with the
    same draw are stored under the same id. *)
Lemma submit_review_same_id_twice :
  let st0 := on_disk (records []) 100 in
  let st1 := snd (submit_review example_runtime
                    (request new_year_ten 7 120 200) complaint st0) in
  let st2 := snd (submit_review example_runtime
                    (request new_year_ten 7 950000 300) praise st1) in
  map (get (u "id")) (fst (load_submissions example_runtime st2)) =
  [ Some (JStr (u "sub_20240101100000_7"));
    Some (JStr (u "sub_20240101100000_7")) ] /\
  map (get (u "review_text")) (fst (load_submissions example_runtime st2)) =
  [ Some (JStr (u "Terrible service, rude staff")); Some (JStr (u "Great")) ].
Proof. vm_compute. split; reflexivity. Qed.

(** ** Statistics *)

Lemma ratings_of_missing submissions :
  (exists s, In s submissions /\ get (u "rating") s = None) ->
  ratings_of submissions = Raise (KeyError (u "rating")).
Proof.
  intros (s & Hin & Hs).
  induction submissions as [|s0 r IH]; [contradiction|].
  simpl. destruct (get (u "rating") s0) as [v|] eqn:E; [|reflexivity].
  destruct Hin as [->|Hin]; [congruence|].
  now rewrite (IH Hin).
Qed.

Lemma ratings_of_ints submissions zs :
  map (get (u "rating")) submissions = map (fun z => Some (JInt z)) zs ->
  ratings_of submissions = Ok (map JInt zs).
Proof.
  revert zs. induction submissions as [|s r IH]; intros [|z zs] H;
    try discriminate; [reflexivity|].
  simpl in H. injection H as Hs Hr. simpl.
  now rewrite Hs, (IH zs Hr).
Qed.

Lemma ints_of_ints zs : ints_of (map JInt zs) = Some zs.
Proof. induction zs as [|z zs IH]; simpl; [reflexivity | now rewrite IH]. Qed.

Lemma count_ints zs i :
  count (map JInt zs) i = Z.of_nat (count_occ Z.eq_dec zs i).
Proof.
  unfold count. f_equal.
  induction zs as [|z zs IH]; simpl; [reflexivity|].
  destruct (Z.eq_dec z i) as [->|Hne].
  - rewrite Z.eqb_refl. simpl. now rewrite IH.
  - apply Z.eqb_neq in Hne. now rewrite Hne.
Qed.

(** C9: on a store whose list is not empty, [get_stats] answers 500 as
    soon as one record has no [rating] key (it does not skip the record);
    when every record has an integer rating and the mean is a float, it
    returns the number of records, the mean rounded to two decimals, and
    for each star from 1 to 5 the number of records with that rating; when
    every record has a rating and [sum] raises on them, it answers 500
    with that exception. *)
Theorem get_stats_needs_every_rating py st :
  let submissions := fst (load_submissions py st) in
  submissions <> [] ->
  ((exists s, In s submissions /\ get (u "rating") s = None) ->
   fst (get_stats py st) = HTTPException 500 (Some (KeyError (u "rating")))) /\
  (forall zs mean,
     map (get (u "rating")) submissions = map (fun z => Some (JInt z)) zs ->
     truediv py (NInt (fold_left Z.add zs 0))
             (Z.of_nat (List.length submissions)) = Ok mean ->
     fst (get_stats py st) =
     Returns {| total_reviews := Z.of_nat (List.length submissions);
                average_rating := NFloat (round2 py mean);
                rating_distribution :=
                  map (fun i => (dec i, Z.of_nat (count_occ Z.eq_dec zs i)))
                      [1; 2; 3; 4; 5] |}) /\
  (forall ratings e,
     ratings_of submissions = Ok ratings ->
     py_sum py ratings = Raise e ->
     fst (get_stats py st) = HTTPException 500 (Some e)).
Proof.
  intros submissions. subst submissions. unfold get_stats.
  destruct (load_submissions py st) as [submissions st']. cbn [fst].
  intros Hne. destruct submissions as [|s0 rest] eqn:E; [contradiction|].
  rewrite <- E in *. clear E. split; [|split].
  - intros Hmissing. unfold compute_stats.
    now rewrite (ratings_of_missing _ Hmissing).
  - intros zs mean Hratings Hmean. unfold compute_stats, py_sum, bind.
    assert (Hlen : List.length zs = List.length submissions).
    { apply (f_equal (@List.length _)) in Hratings.
      now rewrite !length_map in Hratings. }
    rewrite (ratings_of_ints _ _ Hratings), ints_of_ints, length_map, Hlen, Hmean.
    cbn [fst map]. now rewrite !count_ints.
  - intros ratings e Hratings Hsum. unfold compute_stats, bind.
    now rewrite Hratings, Hsum.
Qed.

Lemma get_stats_needs_every_rating_witness :
  fst (load_submissions example_runtime (on_disk (records [older; unrated]) 100))
  <> [] /\
  fst (get_stats example_runtime (on_disk (records [older; unrated]) 100)) =
  HTTPException 500 (Some (KeyError (u "rating"))) /\
  fst (get_stats example_runtime (on_disk (records [older; newer]) 100)) =
  Returns {| total_reviews := 2;
             average_rating := NFloat (S754_finite false 7881299347898368 (-51));
             rating_distribution :=
               [(u "1", 0); (u "2", 1); (u "3", 0); (u "4", 0); (u "5", 1)] |}.
Proof.
  assert (H1 : fst (load_submissions example_runtime
                      (on_disk (records [older; unrated]) 100)) <> [])
    by (vm_compute; discriminate).
  assert (H2 : fst (load_submissions example_runtime
                      (on_disk (records [older; newer]) 100)) <> [])
    by (vm_compute; discriminate).
  split; [exact H1|]. split.
  - apply (proj1 (get_stats_needs_every_rating example_runtime _ H1)).
    exists unrated. split; [vm_compute; auto | reflexivity].
  - exact (proj1 (proj2 (get_stats_needs_every_rating example_runtime _ H2))
             [5; 2] _ eq_refl eq_refl).
Defined.

(** C9 as stated fails: every record of these stores carries a rating, the
    string ["5"] in one and [null] in the other, and [get_stats] answers
    500, since [sum] raises on the first rating that is not a number. *)
Lemma get_stats_rated_but_500 :
  let st1 := on_disk (records [older; quoted]) 100 in
  let st2 := on_disk (records [older; nulled]) 100 in
  map (get (u "rating")) (fst (load_submissions example_runtime st1)) =
  [Some (JStr (u "5")); Some (JInt 2)] /\
  fst (get_stats example_runtime st1) = HTTPException 500 (Some TypeError) /\
  map (get (u "rating")) (fst (load_submissions example_runtime st2)) =
  [Some JNull; Some (JInt 2)] /\
  fst (get_stats example_runtime st2) = HTTPException 500 (Some TypeError).
Proof. vm_compute. repeat split; reflexivity. Qed.

(* ================================================================== *)
(** * Further properties of the store *)
(* ================================================================== *)

(** ** Order on timestamps *)

Lemma str_ltb_asym a b : str_ltb a b = true -> str_ltb b a = false.
Proof.
  revert b. induction a as [|x a IH]; intros [|y b]; simpl; try reflexivity;
    try discriminate.
  intros H. apply orb_true_iff in H as [H|H].
  - apply N.ltb_lt in H.
    destruct (N.ltb_spec y x); [lia|]. destruct (N.eqb_spec y x); [lia|].
    reflexivity.
  - apply andb_true_iff in H as [Hxy H]. apply N.eqb_eq in Hxy. subst y.
    rewrite N.ltb_irrefl, N.eqb_refl. simpl. now apply IH.
Qed.

Lemma str_ltb_false_trans a b c :
  str_ltb a b = false -> str_ltb b c = false -> str_ltb a c = false.
Proof.
  revert b c. induction a as [|x a IH]; intros [|y b] [|z c]; simpl;
    try reflexivity; try discriminate.
  intros H1 H2.
  apply orb_false_iff in H1 as [Hxy H1]. apply orb_false_iff in H2 as [Hyz H2].
  apply N.ltb_ge in Hxy, Hyz.
  destruct (N.ltb_spec x z); [lia|]. simpl.
  destruct (N.eqb_spec x z) as [->|]; [|reflexivity]. simpl.
  assert (y = z) by lia. subst y.
  rewrite N.eqb_refl in H1, H2. simpl in H1, H2. now apply (IH b c).
Qed.

(** ** The sort *)

Lemma insert_desc_perm k x l : Permutation (insert_desc k x l) ((k, x) :: l).
Proof.
  induction l as [|[k' y] r IH]; simpl; [reflexivity|].
  destruct (str_ltb k k'); [|reflexivity].
  rewrite IH. apply perm_swap.
Qed.

Lemma sort_desc_perm l : Permutation (sort_desc l) l.
Proof.
  induction l as [|[k x] r IH]; simpl; [reflexivity|].
  rewrite insert_desc_perm. now apply perm_skip.
Qed.

Lemma insert_desc_sorted k x l : keys_sorted l -> keys_sorted (insert_desc k x l).
Proof.
  induction 1 as [|[k' y] r Hr IH Hall]; simpl.
  - repeat constructor.
  - destruct (str_ltb k k') eqn:E.
    + constructor; [exact IH|].
      apply (Permutation_Forall (x := (k, x) :: r));
        [symmetry; apply insert_desc_perm|].
      constructor; [now apply str_ltb_asym | exact Hall].
    + constructor; [now constructor|].
      constructor; [exact E|].
      eapply Forall_impl; [|exact Hall].
      intros [kz z] Hz. simpl in *. now apply (str_ltb_false_trans k k' kz).
Qed.

Lemma sort_desc_sorted l : keys_sorted (sort_desc l).
Proof.
  induction l as [|[k x] r IH]; simpl; [constructor | now apply insert_desc_sorted].
Qed.

(** Records of equal timestamp keep their order. *)
Lemma insert_desc_stable t k x l :
  filter (fun p => str_eqb (fst p) t) (insert_desc k x l) =
  filter (fun p => str_eqb (fst p) t) ((k, x) :: l).
Proof.
  induction l as [|[k' y] r IH]; [reflexivity|].
  simpl insert_desc. destruct (str_ltb k k') eqn:E; [|reflexivity].
  simpl in *. rewrite IH.
  destruct (str_eqb_spec k t) as [->|]; [|reflexivity].
  destruct (str_eqb_spec k' t) as [->|]; [|reflexivity].
  pose proof (str_ltb_asym _ _ E). congruence.
Qed.

Lemma sort_desc_stable t l :
  filter (fun p => str_eqb (fst p) t) (sort_desc l) =
  filter (fun p => str_eqb (fst p) t) l.
Proof.
  induction l as [|[k x] r IH]; [reflexivity|].
  simpl sort_desc. rewrite insert_desc_stable. simpl. now rewrite IH.
Qed.

Lemma str_keys_spec l kl :
  str_keys l = Some kl ->
  map snd kl = l /\ Forall (fun p => key_of (snd p) = fst p) kl.
Proof.
  revert kl. induction l as [|x r IH]; simpl; intros kl.
  - intros [= <-]. split; constructor.
  - destruct (timestamp_key x) as [| | | |k| |] eqn:E; try discriminate.
    destruct (str_keys r) as [kr|]; [|discriminate].
    intros [= <-]. destruct (IH kr eq_refl) as [Hmap Hall].
    split; [simpl; now rewrite Hmap|].
    constructor; [|exact Hall]. simpl. unfold key_of. now rewrite E.
Qed.

Lemma str_keys_some l :
  Forall str_timestamped l -> exists kl, str_keys l = Some kl.
Proof.
  induction 1 as [|x r [t Ht] _ [kr IH]]; simpl; [now exists []|].
  rewrite Ht, IH. now eexists.
Qed.

Lemma keys_sorted_newest_first kl :
  Forall (fun p => key_of (snd p) = fst p) kl ->
  keys_sorted kl -> newest_first (map snd kl).
Proof.
  intros Hkeys Hs. induction Hs as [|p r Hr IH Hall]; simpl; [constructor|].
  inversion Hkeys as [|? ? Hp Hrest]; subst.
  constructor; [now apply IH|].
  rewrite Forall_map. rewrite Forall_forall in *.
  intros q Hq. rewrite Hp, (Hrest q Hq). now apply Hall.
Qed.

(** The sort of records with string timestamps succeeds, rearranges the
    records, puts them newest first, and keeps the order of records of the
    same timestamp. *)
Lemma sort_newest_first_spec py l :
  Forall str_timestamped l ->
  exists sorted,
    sort_newest_first py l = Ok sorted /\
    Permutation sorted l /\ newest_first sorted /\
    forall t, filter (fun s => str_eqb (key_of s) t) sorted =
              filter (fun s => str_eqb (key_of s) t) l.
Proof.
  intros Hl. destruct (str_keys_some l Hl) as [kl Hkl].
  destruct (str_keys_spec l kl Hkl) as [Hmap Hkeys].
  assert (Hsorted_keys : Forall (fun p => key_of (snd p) = fst p) (sort_desc kl)).
  { apply (Permutation_Forall (x := kl)); [symmetry; apply sort_desc_perm | exact Hkeys]. }
  assert (Hfilter : forall t (ps : list (str * dict)),
             Forall (fun p => key_of (snd p) = fst p) ps ->
             filter (fun s => str_eqb (key_of s) t) (map snd ps) =
             map snd (filter (fun p => str_eqb (fst p) t) ps)).
  { intros t ps Hps. induction Hps as [|p ps Hp _ IH]; [reflexivity|].
    simpl. rewrite Hp, IH. now destruct (str_eqb (fst p) t). }
  exists (map snd (sort_desc kl)). unfold sort_newest_first. rewrite Hkl.
  split; [reflexivity|]. split; [|split].
  - rewrite <- Hmap. apply Permutation_map, sort_desc_perm.
  - apply keys_sorted_newest_first; [exact Hsorted_keys | apply sort_desc_sorted].
  - intros t. rewrite <- Hmap.
    rewrite !Hfilter by assumption. now rewrite sort_desc_stable.
Qed.

Lemma only_dicts_records l : only_dicts (map JObj l) = l.
Proof. induction l as [|d l IH]; simpl; [reflexivity | now rewrite IH]. Qed.

(** X1: loading twice gives what loading once gives: the second load
    returns the same list and leaves the state of the first; a load never
    changes the file. *)
Theorem load_submissions_twice py st :
  let once := load_submissions py st in
  fst (load_submissions py (snd once)) = fst once /\
  snd (load_submissions py (snd once)) = snd once /\
  data_file (snd once) = data_file st.
Proof.
  intros once. subst once. rewrite load_idempotent.
  repeat split. apply load_data_file.
Qed.

(** X2: when the file is read and every record in it has a string
    timestamp (or none), the load returns exactly the dictionaries of the
    document, rearranged newest first, records of equal timestamp in their
    order in the file, and remembers that list in the cache. *)
Theorem load_parse_newest_first py st f raw :
  data_file st = Some f ->
  cache_hit st f = false ->
  content f = Some raw ->
  Forall str_timestamped (only_dicts (submissions_of_document raw)) ->
  let loaded := fst (load_submissions py st) in
  Permutation loaded (only_dicts (submissions_of_document raw)) /\
  newest_first loaded /\
  (forall t, filter (fun s => str_eqb (key_of s) t) loaded =
             filter (fun s => str_eqb (key_of s) t)
                    (only_dicts (submissions_of_document raw))) /\
  cache_data (snd (load_submissions py st)) = loaded.
Proof.
  intros Hf Hmiss Hc Hts.
  destruct (sort_newest_first_spec py _ Hts) as (sorted & Hsort & Hperm & Hnf & Hst).
  unfold load_submissions, _load_submissions_unlocked.
  rewrite Hf, Hmiss. unfold parse_file, bind. rewrite Hc, Hsort. simpl.
  auto.
Qed.

Lemma load_parse_newest_first_witness :
  let st := on_disk (Some (JArr [JObj older; JInt 3; JObj newer])) 100 in
  fst (load_submissions example_runtime st) = [newer; older] /\
  newest_first (fst (load_submissions example_runtime st)).
Proof.
  intros st.
  assert (Hts : Forall str_timestamped [older; newer]).
  { repeat constructor; eexists; reflexivity. }
  split; [reflexivity|].
  exact (proj1 (proj2 (load_parse_newest_first example_runtime st _ _
                         eq_refl eq_refl eq_refl Hts))).
Defined.

(** X3: when the write fails, [save_submission] returns [None], the file
    is the one there was, and a load returns what it returned before. *)
Theorem save_submission_write_failure py io submission st :
  write_ok io = false ->
  fst (save_submission py io submission st) = None /\
  data_file (snd (save_submission py io submission st)) = data_file st /\
  fst (load_submissions py (snd (save_submission py io submission st))) =
  fst (load_submissions py st).
Proof.
  intros Hfail. unfold save_submission.
  pose proof (load_idempotent py st) as Hidem.
  pose proof (load_data_file py st) as Hfile.
  destruct (load_submissions py st) as [loaded st1].
  unfold _atomic_write_json. rewrite Hfail. simpl in *.
  now rewrite Hidem.
Qed.

Lemma save_submission_write_failure_witness :
  let st := on_disk (records [older]) 100 in
  fst (save_submission example_runtime disk_full newer st) = None /\
  fst (load_submissions example_runtime
         (snd (save_submission example_runtime disk_full newer st))) = [older].
Proof.
  intros st.
  destruct (save_submission_write_failure example_runtime disk_full newer st eq_refl)
    as (H1 & _ & H3).
  split; [exact H1 | exact H3].
Defined.

(** X4: after an append that succeeded, the file holds the records loaded
    before followed by the new one, so a process that starts then and reads
    the file gets exactly these records, newest first (when their
    timestamps are strings). *)
Theorem save_submission_durable py io submission st fresh :
  write_ok io = true ->
  Forall str_timestamped (fst (load_submissions py st) ++ [submission]) ->
  data_file fresh = data_file (snd (save_submission py io submission st)) ->
  cache_mtime fresh = None ->
  data_file fresh =
    Some {| content := records (fst (load_submissions py st) ++ [submission]);
            mtime := stamp io |} /\
  Permutation (fst (load_submissions py fresh))
              (fst (load_submissions py st) ++ [submission]) /\
  newest_first (fst (load_submissions py fresh)).
Proof.
  intros Hok Hts Hfile Hcache.
  assert (Hwritten : data_file fresh =
            Some {| content := records (fst (load_submissions py st) ++ [submission]);
                    mtime := stamp io |}).
  { rewrite Hfile. unfold save_submission.
    destruct (load_submissions py st) as [loaded st1].
    unfold _atomic_write_json. now rewrite Hok. }
  split; [exact Hwritten|].
  destruct (sort_newest_first_spec py _ Hts) as (sorted & Hsort & Hperm & Hnf & _).
  unfold load_submissions at 1 3, _load_submissions_unlocked.
  rewrite Hwritten. unfold cache_hit. rewrite Hcache.
  unfold parse_file, bind, records. cbn [content submissions_of_document].
  rewrite only_dicts_records, Hsort. simpl. auto.
Qed.

Lemma save_submission_durable_witness :
  let st := on_disk (records [older]) 100 in
  let fresh := on_disk (records [older; newer]) 200 in
  data_file fresh =
    data_file (snd (save_submission example_runtime (disk_ok 200) newer st)) /\
  Permutation (fst (load_submissions example_runtime fresh)) [older; newer] /\
  fst (load_submissions example_runtime fresh) = [newer; older].
Proof.
  intros st fresh.
  assert (Hts : Forall str_timestamped
                  (fst (load_submissions example_runtime st) ++ [newer])).
  { repeat constructor; eexists; reflexivity. }
  split; [reflexivity|]. split; [|reflexivity].
  exact (proj1 (proj2 (save_submission_durable example_runtime (disk_ok 200)
                         newer st fresh eq_refl Hts eq_refl eq_refl))).
Defined.

(** X5: [update_submission] and [update_submission_return] do the same
    work: the first returns [True] exactly when the second returns a
    record, and they leave the same store. *)
Theorem update_submission_agrees py io submission_id updates st :
  update_submission py io submission_id updates st =
  (match fst (update_submission_return py io submission_id updates st) with
   | Some _ => true
   | None => false
   end,
   snd (update_submission_return py io submission_id updates st)).
Proof.
  unfold update_submission, update_submission_return.
  destruct (load_submissions py st) as [loaded st1].
  destruct (update_first submission_id updates loaded) as [[updated l]|];
    [|reflexivity].
  now destruct (_atomic_write_json io l st1).
Qed.





(* ================================================================== *)
(** * Further properties of the heuristic and the pack *)
(* ================================================================== *)

Lemma base_rating_range py rating : 1 <= base_rating py rating <= 5.
Proof.
  unfold base_rating. destruct (py_int py rating) as [b|]; [|lia].
  destruct ((1 <=? b) && (b <=? 5)) eqn:E; [|lia].
  apply andb_true_iff in E as [H1 H2]. apply Z.leb_le in H1, H2. lia.
Qed.

Lemma stars_of_score_range score base :
  1 <= base <= 5 -> 1 <= stars_of_score score base <= 5.
Proof. intros H. unfold stars_of_score. split_ifs; lia. Qed.

Lemma heuristic_range py rating review_text s :
  _predict_stars_from_text_heuristic py rating review_text = Some s ->
  1 <= s <= 5.
Proof.
  unfold _predict_stars_from_text_heuristic.
  destruct (strip (lower py review_text)).
  - destruct (py_int py rating) as [r|]; [|discriminate].
    destruct ((1 <=? r) && (r <=? 5)) eqn:E; [|discriminate].
    intros [= <-]. apply andb_true_iff in E as [H1 H2].
    apply Z.leb_le in H1, H2. lia.
  - intros [= <-]. apply stars_of_score_range, base_rating_range.
Qed.

(** X7: whatever the rating (also one outside 1..5 or one [int] rejects)
    and whatever the text, the stars the heuristic returns, when it returns
    any, lie in 1..5; and it returns some whenever the lowered text is not
    blank. *)
Theorem heuristic_stars_in_range py rating review_text :
  (forall s, _predict_stars_from_text_heuristic py rating review_text = Some s ->
             1 <= s <= 5) /\
  (strip (lower py review_text) <> [] ->
   exists s, _predict_stars_from_text_heuristic py rating review_text = Some s).
Proof.
  split; [intros s; apply heuristic_range|].
  unfold _predict_stars_from_text_heuristic.
  destruct (strip (lower py review_text)); [contradiction|]. now eexists.
Qed.

Lemma heuristic_stars_in_range_witness :
  _predict_stars_from_text_heuristic example_runtime (JInt 40) (u "bad") = Some 2 /\
  1 <= 2 <= 5.
Proof.
  split; [reflexivity|].
  exact (proj1 (heuristic_stars_in_range example_runtime (JInt 40) (u "bad"))
           2 eq_refl).
Defined.

Lemma effective_rating_range py rating review_text :
  1 <= effective_rating py rating review_text <= 5.
Proof.
  unfold effective_rating.
  destruct (_predict_stars_from_text_heuristic py rating review_text) eqn:E.
  - now apply heuristic_range in E.
  - apply base_rating_range.
Qed.

(** X8: the instant pack always predicts stars in 1..5, and its tone
    follows them: the low plan of actions for 1 or 2 stars, the middle one
    for 3, the high one for 4 or 5. *)
Theorem instant_pack_tone py rating review_text username :
  exists s,
    predicted_stars (_instant_ai_pack py rating review_text username) = Some s /\
    1 <= s <= 5 /\
    ai_recommended_actions (_instant_ai_pack py rating review_text username) =
    (if s <=? 2 then low_actions else if s =? 3 then mid_actions else high_actions).
Proof.
  pose proof (effective_rating_range py rating review_text) as Hr.
  exists (effective_rating py rating review_text).
  unfold _instant_ai_pack.
  destruct (Z.leb_spec 1 (effective_rating py rating review_text)); [|lia].
  destruct (Z.leb_spec (effective_rating py rating review_text) 5); [|lia].
  destruct (effective_rating py rating review_text <=? 2);
    [|destruct (effective_rating py rating review_text =? 3)]; simpl; auto.
Qed.

(** X9: the stars of the pack [generate_ai_pack] returns are [None] or lie
    in 1..5, whatever number, string or other value the model put under
    [predicted_stars]. *)
Theorem generate_ai_pack_stars py model rating review_text username p s :
  generate_ai_pack py model rating review_text username = Ok p ->
  predicted_stars p = Some s ->
  1 <= s <= 5.
Proof.
  assert (Hinst : forall q s',
             q = _instant_ai_pack py rating review_text username ->
             predicted_stars q = Some s' -> 1 <= s' <= 5).
  { intros q s' -> Hs.
    pose proof (effective_rating_range py rating review_text) as Hr.
    revert Hs. unfold _instant_ai_pack.
    destruct (Z.leb_spec 1 (effective_rating py rating review_text)); [|lia].
    destruct (Z.leb_spec (effective_rating py rating review_text) 5); [|lia].
    destruct (effective_rating py rating review_text <=? 2);
      [|destruct (effective_rating py rating review_text =? 3)]; simpl;
      intros [= <-]; exact Hr. }
  assert (Hval : forall v s', validated_stars py v = Some s' -> 1 <= s' <= 5).
  { intros v s'. unfold validated_stars, bind.
    destruct (negb (is_none v) && negb (is_empty_str v)); [|discriminate].
    destruct (py_int py v) as [z|]; [|discriminate].
    destruct ((1 <=? z) && (z <=? 5)) eqn:E; [|discriminate].
    intros [= <-]. apply andb_true_iff in E as [H1 H2].
    apply Z.leb_le in H1, H2. lia. }
  unfold generate_ai_pack, _fallback_ai_pack.
  destruct model as [generate_content|];
    [|intros [= <-]; now apply Hinst].
  destruct (generate_content _ rating review_text) as [|[t|e]];
    unfold bind, try_except; cbv zeta;
    repeat match goal with
           | |- context [match ?x with [] => _ | _ :: _ => _ end] =>
               destruct x eqn:?
           end;
    intros [= <-]; try (now apply Hinst);
    cbn [predicted_stars];
    match goal with
    | |- context [validated_stars py ?v] =>
        destruct (validated_stars py v) eqn:Ev;
        [intros [= <-]; now apply (Hval v) | apply heuristic_range]
    end.
Qed.

Lemma generate_ai_pack_stars_witness :
  let reply_text :=
    u "{" ++ [34%N] ++ u "ai_response" ++ [34%N] ++ u ": " ++ [34%N] ++ u "Thanks" ++ [34%N] ++
    u ", " ++ [34%N] ++ u "ai_summary" ++ [34%N] ++ u ": " ++ [34%N] ++ u "Fine" ++ [34%N] ++
    u ", " ++ [34%N] ++ u "ai_recommended_actions" ++ [34%N] ++ u ": " ++ [34%N] ++ u "None" ++ [34%N] ++
    u ", " ++ [34%N] ++ u "predicted_stars" ++ [34%N] ++ u ": 9}" in
  let model := Some (fun _ _ _ => Reply (Ok (Some reply_text))) in
  exists p,
    generate_ai_pack example_runtime model (JInt 4) (u "tasty") None = Ok p /\
    ai_response p = u "Thanks" /\
    predicted_stars p = Some 4 /\ 1 <= 4 <= 5.
Proof.
  intros reply_text model. eexists.
  split; [vm_compute; reflexivity|]. split; [reflexivity|].
  split; [reflexivity|].
  eapply (generate_ai_pack_stars example_runtime model (JInt 4) (u "tasty") None);
    vm_compute; reflexivity.
Defined.

(** ** The fallback and the braces *)

(** X10: when the cleaned text does not parse, the fallback parse takes
    place exactly when some opening brace is followed, anywhere later, by a
    closing brace; otherwise [extract_json_strong] returns [None] after the
    one failed parse. *)
Theorem extract_json_strong_fallback_iff py raw e :
  raw <> [] ->
  json_loads py (strip raw) = Raise e ->
  ((exists candidate,
      snd (extract_json_strong_traced py raw) = [strip raw; candidate]) <->
   (exists pre mid post, strip raw = pre ++ 123%N :: mid ++ 125%N :: post)) /\
  ((forall pre mid post, strip raw <> pre ++ 123%N :: mid ++ 125%N :: post) ->
   extract_json_strong_traced py raw = (None, [strip raw])).
Proof.
  intros Hraw Hparse. unfold extract_json_strong_traced.
  destruct raw as [|c raw]; [contradiction|].
  set (cleaned := strip (c :: raw)) in *. rewrite Hparse.
  destruct (re_search brace_pattern cleaned) as [cand|] eqn:Es.
  - destruct (re_search_brace _ _ Es) as (pre & mid & post & E1 & E2 & _).
    assert (Hspan : exists pre mid post,
               cleaned = pre ++ 123%N :: mid ++ 125%N :: post).
    { exists pre, mid, post. rewrite E1, E2. simpl.
      now rewrite <- !app_assoc. }
    split; [split; [intros _; exact Hspan | intros _; now exists cand]|].
    intros Hnone. destruct Hspan as (pre' & mid' & post' & E).
    now elim (Hnone pre' mid' post').
  - split; [|reflexivity]. split.
    + intros (cand & H). discriminate H.
    + intros (pre & mid & post & E).
      now elim (re_search_brace_none _ Es pre mid post).
Qed.

Lemma extract_json_strong_fallback_iff_witness :
  json_loads example_runtime (strip (u "} no {")) = Raise JSONDecodeError /\
  extract_json_strong_traced example_runtime (u "} no {") = (None, [u "} no {"]).
Proof.
  split; [reflexivity|].
  refine (proj2 (extract_json_strong_fallback_iff example_runtime (u "} no {")
                   JSONDecodeError _ eq_refl) _); [discriminate|].
  intros pre mid post E.
  apply (re_search_brace_none (strip (u "} no {")) eq_refl pre mid post E).
Defined.

(* ================================================================== *)
(** * Timestamps *)
(* ================================================================== *)

Lemma str_eqb_cons x a y b :
  str_eqb (x :: a) (y :: b) = (x =? y)%N && str_eqb a b.
Proof.
  destruct (str_eqb_spec (x :: a) (y :: b)) as [E|E].
  - injection E as -> ->. now rewrite N.eqb_refl, str_eqb_refl.
  - destruct (N.eqb_spec x y) as [->|]; [|reflexivity].
    destruct (str_eqb_spec a b) as [->|]; [contradiction|reflexivity].
Qed.

(** Comparing two strings that start with parts of the same length. *)
Lemma str_ltb_app a b s t :
  List.length a = List.length b ->
  str_ltb (a ++ s) (b ++ t) = str_ltb a b || (str_eqb a b && str_ltb s t).
Proof.
  revert b. induction a as [|x a IH]; intros [|y b] Hlen; try discriminate.
  - simpl. destruct s, t; reflexivity.
  - injection Hlen as Hlen. simpl. rewrite (IH b Hlen), str_eqb_cons.
    destruct (x <? y)%N, (x =? y)%N, (str_ltb a b), (str_eqb a b);
      reflexivity.
Qed.

Lemma str_ltb_sep c s t : str_ltb ([c] ++ s) ([c] ++ t) = str_ltb s t.
Proof. simpl. now rewrite N.ltb_irrefl, N.eqb_refl. Qed.

Lemma pad_eqb w n m :
  0 <= n < 10 ^ Z.of_nat w -> 0 <= m < 10 ^ Z.of_nat w ->
  str_eqb (pad w n) (pad w m) = (n =? m).
Proof.
  intros Hn Hm. destruct (str_eqb_spec (pad w n) (pad w m)) as [E|E].
  - apply pad_inj_range in E; try assumption. subst. now rewrite Z.eqb_refl.
  - destruct (Z.eqb_spec n m) as [->|]; [contradiction|reflexivity].
Qed.

Lemma pad_ltb w n m :
  0 <= n < 10 ^ Z.of_nat w -> 0 <= m < 10 ^ Z.of_nat w ->
  str_ltb (pad w n) (pad w m) = (n <? m).
Proof.
  revert n m. induction w as [|w IH]; intros n m Hn Hm.
  - simpl in *. assert (n = 0) by lia. assert (m = 0) by lia. now subst.
  - rewrite Nat2Z.inj_succ, Z.pow_succ_r in Hn, Hm by lia.
    pose proof (Z.div_mod n 10 ltac:(lia)) as En.
    pose proof (Z.div_mod m 10 ltac:(lia)) as Em.
    pose proof (Z.mod_pos_bound n 10 ltac:(lia)) as Bn.
    pose proof (Z.mod_pos_bound m 10 ltac:(lia)) as Bm.
    assert (Hn' : 0 <= n / 10 < 10 ^ Z.of_nat w).
    { split; [apply Z.div_pos; lia | apply Z.div_lt_upper_bound; lia]. }
    assert (Hm' : 0 <= m / 10 < 10 ^ Z.of_nat w).
    { split; [apply Z.div_pos; lia | apply Z.div_lt_upper_bound; lia]. }
    simpl pad. rewrite str_ltb_app by now rewrite !pad_length.
    rewrite (IH _ _ Hn' Hm'), (pad_eqb w _ _ Hn' Hm').
    assert (Hd : str_ltb [digit (n mod 10)] [digit (m mod 10)] =
                 (n mod 10 <? m mod 10)).
    { simpl. rewrite andb_false_r, orb_false_r. unfold digit.
      destruct (N.ltb_spec (48 + Z.to_N (n mod 10)) (48 + Z.to_N (m mod 10)));
        destruct (Z.ltb_spec (n mod 10) (m mod 10)); lia. }
    rewrite Hd.
    destruct (Z.ltb_spec (n / 10) (m / 10)), (Z.eqb_spec (n / 10) (m / 10)),
      (Z.ltb_spec (n mod 10) (m mod 10)), (Z.ltb_spec n m);
      simpl; try reflexivity; lia.
Qed.

Lemma fraction_ltb a b :
  0 <= a <= 999999 -> 0 <= b <= 999999 ->
  str_ltb (fraction a) (fraction b) = (a <? b).
Proof.
  intros Ha Hb. unfold fraction.
  destruct (Z.eqb_spec a 0) as [->|Ha0], (Z.eqb_spec b 0) as [->|Hb0].
  - reflexivity.
  - simpl. symmetry. apply Z.ltb_lt. lia.
  - simpl. symmetry. apply Z.ltb_ge. lia.
  - change (u ".") with [46%N]. rewrite str_ltb_sep.
    apply pad_ltb; change (10 ^ Z.of_nat 6) with 1000000; lia.
Qed.

Lemma isoformat_ltb a b :
  datetime_wf a -> datetime_wf b ->
  str_ltb (isoformat a) (isoformat b) = earlier a b.
Proof.
  intros (Hy & Hmo & Hd & Hh & Hmi & Hs & Hus)
         (Hy' & Hmo' & Hd' & Hh' & Hmi' & Hs' & Hus').
  unfold isoformat, earlier.
  change (if microsecond a =? 0 then [] else u "." ++ pad 6 (microsecond a))
    with (fraction (microsecond a)).
  change (if microsecond b =? 0 then [] else u "." ++ pad 6 (microsecond b))
    with (fraction (microsecond b)).
  change (u "-") with [45%N]. change (u "T") with [84%N].
  change (u ":") with [58%N].
  repeat (rewrite str_ltb_app by (now rewrite !pad_length);
          rewrite ?str_ltb_sep).
  rewrite fraction_ltb by assumption.
  rewrite (pad_ltb 4), (pad_eqb 4)
    by (change (10 ^ Z.of_nat 4) with 10000; lia).
  rewrite !(pad_ltb 2), !(pad_eqb 2)
    by (change (10 ^ Z.of_nat 2) with 100; lia).
  reflexivity.
Qed.

(** X11: two submissions made by [submit_review] compare, under the
    loader's comparison of timestamp strings, as the clock readings they
    were stamped with: the lexicographic order of the ISO strings is the
    chronological order. *)
Theorem new_submissions_sort_by_clock py w1 payload1 w2 payload2 :
  datetime_wf (clock_timestamp w1) -> datetime_wf (clock_timestamp w2) ->
  str_ltb (key_of (new_submission py w1 payload1))
          (key_of (new_submission py w2 payload2)) =
  earlier (clock_timestamp w1) (clock_timestamp w2).
Proof.
  intros H1 H2.
  change (key_of (new_submission py w1 payload1))
    with (isoformat (clock_timestamp w1)).
  change (key_of (new_submission py w2 payload2))
    with (isoformat (clock_timestamp w2)).
  now apply isoformat_ltb.
Qed.

Lemma new_submissions_sort_by_clock_witness :
  let w1 := request new_year_ten 7 0 200 in
  let w2 := request new_year_ten 8 120 300 in
  datetime_wf (clock_timestamp w1) /\ datetime_wf (clock_timestamp w2) /\
  str_ltb (key_of (new_submission example_runtime w1 complaint))
          (key_of (new_submission example_runtime w2 praise)) = true.
Proof.
  intros w1 w2.
  assert (H1 : datetime_wf (clock_timestamp w1)) by (unfold datetime_wf; simpl; lia).
  assert (H2 : datetime_wf (clock_timestamp w2)) by (unfold datetime_wf; simpl; lia).
  split; [exact H1|]. split; [exact H2|].
  rewrite (new_submissions_sort_by_clock example_runtime w1 complaint w2 praise H1 H2).
  reflexivity.
Defined.

(* ================================================================== *)
(** * The listing endpoints *)
(* ================================================================== *)

Lemma find_none_existsb {A} (p : A -> bool) l :
  find p l = None <-> existsb p l = false.
Proof.
  induction l as [|x l IH]; simpl; [tauto|].
  destruct (p x); simpl; [split; discriminate | exact IH].
Qed.

Lemma find_app_last {A} (p : A -> bool) l x :
  find p (l ++ [x]) =
  match find p l with
  | Some y => Some y
  | None => if p x then Some x else None
  end.
Proof.
  induction l as [|y l IH]; simpl; [reflexivity|].
  now destruct (p y).
Qed.

(** X12: [get_submission] answers 404 exactly when no stored record has
    the id; when some has, the answer is decided by the first such record
    in the order of the load (sent if it validates, 500 if not). *)
Theorem get_submission_404_iff py Admin (AdminSubmission : dict -> option Admin)
    submission_id st :
  (fst (get_submission py Admin AdminSubmission submission_id st) = Status 404 <->
   existsb (has_id submission_id) (fst (load_submissions py st)) = false) /\
  (forall pre s post,
     fst (load_submissions py st) = pre ++ s :: post ->
     existsb (has_id submission_id) pre = false ->
     has_id submission_id s = true ->
     fst (get_submission py Admin AdminSubmission submission_id st) =
     match AdminSubmission s with Some a => Sent a | None => Status 500 end).
Proof.
  unfold get_submission.
  destruct (load_submissions py st) as [submissions st']. cbn [fst].
  split.
  - rewrite <- find_none_existsb.
    destruct (find (has_id submission_id) submissions) as [s|].
    + destruct (AdminSubmission s); split; discriminate.
    + split; reflexivity.
  - intros pre s post -> Hpre Hs.
    assert (Hfind : find (has_id submission_id) (pre ++ s :: post) = Some s).
    { induction pre as [|p pre IH]; simpl; [now rewrite Hs|].
      simpl in Hpre. apply orb_false_iff in Hpre as [Hp Hpre].
      rewrite Hp. now apply IH. }
    rewrite Hfind. now destruct (AdminSubmission s).
Qed.

Lemma get_submission_404_iff_witness :
  let st := on_disk (records [older; newer]) 100 in
  existsb (has_id (u "sub_0")) (fst (load_submissions example_runtime st)) = false /\
  fst (get_submission example_runtime dict example_admin (u "sub_0") st) = Status 404 /\
  fst (get_submission example_runtime dict example_admin
         (u "sub_20240101100000_7") st) = Sent older.
Proof.
  intros st.
  destruct (get_submission_404_iff example_runtime dict example_admin
              (u "sub_0") st) as [H404 _].
  destruct (get_submission_404_iff example_runtime dict example_admin
              (u "sub_20240101100000_7") st) as [_ Hfound].
  split; [reflexivity|]. split; [now apply H404|].
  exact (Hfound [newer] older [] eq_refl eq_refl eq_refl).
Defined.

(** What a process that starts after a save reads: the records loaded
    before and the new one, newest first. *)
Lemma load_restart_after_save py io submission st fresh :
  write_ok io = true ->
  Forall str_timestamped (fst (load_submissions py st) ++ [submission]) ->
  data_file fresh = data_file (snd (save_submission py io submission st)) ->
  cache_mtime fresh = None ->
  Permutation (fst (load_submissions py fresh))
              (fst (load_submissions py st) ++ [submission]) /\
  newest_first (fst (load_submissions py fresh)).
Proof.
  intros Hok Hts Hfile Hcache.
  assert (Hwritten : data_file fresh =
            Some {| content := records (fst (load_submissions py st) ++ [submission]);
                    mtime := stamp io |}).
  { rewrite Hfile. unfold save_submission.
    destruct (load_submissions py st) as [loaded st1].
    unfold _atomic_write_json. now rewrite Hok. }
  destruct (sort_newest_first_spec py _ Hts) as (sorted & Hsort & Hperm & Hnf & _).
  unfold load_submissions at 1 3, _load_submissions_unlocked.
  rewrite Hwritten. unfold cache_hit. rewrite Hcache.
  unfold parse_file, bind, records. cbn [content submissions_of_document].
  rewrite only_dicts_records, Hsort. simpl. auto.
Qed.

(** In a list that is newest first, the search finds a record that is
    later than every other record the search accepts. *)
Lemma find_newest (p : dict -> bool) l x :
  newest_first l -> In x l -> p x = true ->
  (forall s, In s l -> p s = true ->
             s = x \/ str_ltb (key_of s) (key_of x) = true) ->
  find p l = Some x.
Proof.
  intros Hnf. induction Hnf as [|a r Hr IH Ha]; intros Hin Hx Hlater;
    [destruct Hin|].
  simpl. destruct (p a) eqn:Epa.
  - destruct (Hlater a (or_introl eq_refl) Epa) as [->|Hlt]; [reflexivity|].
    destruct Hin as [->|Hin]; [reflexivity|].
    rewrite Forall_forall in Ha. specialize (Ha x Hin). congruence.
  - destruct Hin as [->|Hin]; [congruence|].
    apply IH; [exact Hin | exact Hx |].
    intros s Hs. apply Hlater. now right.
Qed.

(** X13: in the state a save leaves, where the list the save cached is in
    use, a record saved under an id no stored record has is the one
    [get_submission] finds for that id, and a record saved under an id that
    is already stored is not found: the answer for that id stays the one
    given before the save.  A process that starts afterwards reads the file
    and sorts it again: it finds the saved record whenever its timestamp is
    later than that of every stored record of that id, so that a later
    twin then takes the place of the earlier record in the answer. *)
Theorem get_submission_after_save py Admin (AdminSubmission : dict -> option Admin)
    io submission_id submission st :
  write_ok io = true ->
  has_id submission_id submission = true ->
  let st' := snd (save_submission py io submission st) in
  (existsb (has_id submission_id) (fst (load_submissions py st)) = false ->
   fst (get_submission py Admin AdminSubmission submission_id st') =
   match AdminSubmission submission with Some a => Sent a | None => Status 500 end) /\
  (existsb (has_id submission_id) (fst (load_submissions py st)) = true ->
   fst (get_submission py Admin AdminSubmission submission_id st') =
   fst (get_submission py Admin AdminSubmission submission_id st)) /\
  (forall fresh,
     data_file fresh = data_file st' ->
     cache_mtime fresh = None ->
     Forall str_timestamped (fst (load_submissions py st) ++ [submission]) ->
     (forall s, In s (fst (load_submissions py st)) ->
                has_id submission_id s = true ->
                str_ltb (key_of s) (key_of submission) = true) ->
     fst (get_submission py Admin AdminSubmission submission_id fresh) =
     match AdminSubmission submission with Some a => Sent a | None => Status 500 end).
Proof.
  intros Hok Hid st'. subst st'. split; [|split].
  - destruct (load_after_save py io submission st Hok) as [_ Hload].
    unfold get_submission.
    destruct (load_submissions py (snd (save_submission py io submission st)))
      as [after st2]. cbn [fst] in Hload. subst after.
    destruct (load_submissions py st) as [before st1]. cbn [fst].
    rewrite find_app_last, Hid. intros H.
    apply find_none_existsb in H. rewrite H.
    now destruct (AdminSubmission submission).
  - destruct (load_after_save py io submission st Hok) as [_ Hload].
    unfold get_submission.
    destruct (load_submissions py (snd (save_submission py io submission st)))
      as [after st2]. cbn [fst] in Hload. subst after.
    destruct (load_submissions py st) as [before st1]. cbn [fst].
    rewrite find_app_last, Hid. intros H.
    destruct (find (has_id submission_id) before) as [s|] eqn:E.
    + now destruct (AdminSubmission s).
    + apply find_none_existsb in E. congruence.
  - intros fresh Hfile Hcache Hts Hlater.
    destruct (load_restart_after_save py io submission st fresh Hok Hts Hfile Hcache)
      as [Hperm Hnf].
    unfold get_submission.
    destruct (load_submissions py fresh) as [restarted st2]. cbn [fst] in *.
    assert (Hfind : find (has_id submission_id) restarted = Some submission).
    { apply find_newest; [exact Hnf | | exact Hid |].
      - apply (Permutation_in _ (Permutation_sym Hperm)).
        apply in_or_app. right. now left.
      - intros s Hs Hp. apply (Permutation_in _ Hperm) in Hs.
        apply in_app_or in Hs as [Hs|[<-|[]]]; [right | now left].
        now apply Hlater. }
    rewrite Hfind. now destruct (AdminSubmission submission).
Qed.

Lemma get_submission_after_save_witness :
  let st := on_disk (records [older]) 100 in
  let restarted := on_disk (records [older; twin]) 200 in
  fst (get_submission example_runtime dict example_admin (u "sub_20240102100000_3")
         (snd (save_submission example_runtime (disk_ok 200) newer st))) = Sent newer /\
  fst (get_submission example_runtime dict example_admin (u "sub_20240101100000_7")
         (snd (save_submission example_runtime (disk_ok 200) twin st))) = Sent older /\
  data_file restarted =
  data_file (snd (save_submission example_runtime (disk_ok 200) twin st)) /\
  fst (get_submission example_runtime dict example_admin (u "sub_20240101100000_7")
         restarted) = Sent twin.
Proof.
  intros st restarted. split; [|split; [|split; [reflexivity|]]].
  - exact (proj1 (get_submission_after_save example_runtime dict example_admin
                    (disk_ok 200) (u "sub_20240102100000_3") newer st eq_refl eq_refl)
             eq_refl).
  - rewrite (proj1 (proj2 (get_submission_after_save example_runtime dict
                             example_admin (disk_ok 200) (u "sub_20240101100000_7")
                             twin st eq_refl eq_refl))
               eq_refl).
    reflexivity.
  - apply (proj2 (proj2 (get_submission_after_save example_runtime dict
                           example_admin (disk_ok 200) (u "sub_20240101100000_7")
                           twin st eq_refl eq_refl)) restarted);
      [reflexivity | reflexivity | |].
    + repeat constructor; eexists; reflexivity.
    + intros s [<-|[]] _. reflexivity.
Defined.



Lemma filter_by_rating_raises py rating l s t e :
  In s l -> get (u "rating") s = Some (JStr t) -> int_of_str py t = Raise e ->
  filter_by_rating py rating l = None.
Proof.
  intros Hin Hs He. induction l as [|x r IH]; [contradiction|].
  simpl. destruct Hin as [->|Hin].
  - unfold rating_matches. now rewrite Hs, He.
  - rewrite (IH Hin). now destruct (rating_matches py rating x).
Qed.



(** X15: with a rating filter, one stored record whose rating is a string
    that [int] rejects makes [get_all_submissions] answer 500 for the whole
    listing; without filters the same store is listed as soon as every
    record validates. *)
Theorem get_all_submissions_bad_rating py Admin
    (AdminSubmission : dict -> option Admin) rating date st s t e :
  In s (fst (load_submissions py st)) ->
  get (u "rating") s = Some (JStr t) ->
  int_of_str py t = Raise e ->
  fst (get_all_submissions py Admin AdminSubmission (Some rating) date st)
  = Status 500 /\
  (forall l,
     validate_all Admin AdminSubmission (fst (load_submissions py st)) = Some l ->
     fst (get_all_submissions py Admin AdminSubmission None None st) = Sent l).
Proof.
  intros Hin Hs He. unfold get_all_submissions.
  destruct (load_submissions py st) as [submissions st']. cbn [fst] in *.
  split.
  - unfold select_submissions.
    now rewrite (filter_by_rating_raises py rating submissions s t e Hin Hs He).
  - intros l Hl. unfold select_submissions. now rewrite Hl.
Qed.

Lemma get_all_submissions_bad_rating_witness :
  let odd := [(u "id", JStr (u "sub_1")); (u "rating", JStr (u "five"))] in
  let st := on_disk (records [older; odd]) 100 in
  fst (get_all_submissions example_runtime dict example_admin (Some 2) None st)
  = Status 500 /\
  fst (get_all_submissions example_runtime dict example_admin None None st)
  = Sent [older; odd].
Proof.
  intros odd st.
  destruct (get_all_submissions_bad_rating example_runtime dict example_admin
              2 None st odd (u "five") ValueError
              (or_intror (or_introl eq_refl)) eq_refl eq_refl) as [H1 H2].
  split; [exact H1 | now apply H2].
Defined.

(* ================================================================== *)
(** * The tallies of the analytics *)
(* ================================================================== *)

Lemma analytics_ratings_in_range py submissions ratings :
  analytics_ratings py submissions = Ok ratings ->
  Forall (fun r => 1 <= r <= 5) ratings /\
  (List.length ratings <= List.length submissions)%nat.
Proof.
  revert ratings. induction submissions as [|s r IH]; simpl; intros ratings.
  - intros [= <-]. split; [constructor | simpl; lia].
  - assert (Hskip : analytics_ratings py r = Ok ratings ->
              Forall (fun r => 1 <= r <= 5) ratings /\
              (List.length ratings <= S (List.length r))%nat).
    { intros H. destruct (IH _ H). split; [assumption | lia]. }
    destruct (get (u "rating") s) as [v|]; [|exact Hskip].
    assert (Hint : match py_int py v with
                   | Ok rating_int =>
                       rest <- analytics_ratings py r ;;
                       Ok (if (1 <=? rating_int) && (rating_int <=? 5)
                           then rating_int :: rest else rest)
                   | Raise ValueError | Raise TypeError => analytics_ratings py r
                   | Raise e => Raise e
                   end = Ok ratings ->
                   Forall (fun r => 1 <= r <= 5) ratings /\
                   (List.length ratings <= S (List.length r))%nat).
    { destruct (py_int py v) as [z|[]]; try discriminate; try exact Hskip.
      unfold bind. destruct (analytics_ratings py r) as [rest|]; [|discriminate].
      destruct (IH rest eq_refl) as [Hall Hlen].
      destruct ((1 <=? z) && (z <=? 5)) eqn:E; intros [= <-].
      - apply andb_true_iff in E as [H1 H2]. apply Z.leb_le in H1, H2.
        split; [constructor; [lia | exact Hall] | simpl; lia].
      - split; [exact Hall | lia]. }
    destruct v; exact Hint.
Qed.

Lemma distribution_total ratings :
  Forall (fun r => 1 <= r <= 5) ratings ->
  fold_right Z.add 0 (map snd (distribution ratings)) =
  Z.of_nat (List.length ratings).
Proof.
  unfold distribution. cbn [map snd fold_right].
  induction 1 as [|r l Hr _ IH]; [reflexivity|].
  cbn [count_occ List.length].
  destruct (Z.eq_dec r 1), (Z.eq_dec r 2), (Z.eq_dec r 3), (Z.eq_dec r 4),
    (Z.eq_dec r 5); lia.
Qed.

Lemma positive_reviews_bound ratings :
  0 <= positive_reviews ratings <= Z.of_nat (List.length ratings).
Proof.
  unfold positive_reviews.
  pose proof (filter_length_le (fun r => 4 <=? r) ratings). lia.
Qed.

(** X16: the ratings [get_analytics] collects all lie in 1..5 and are at
    most one per record, so the five counts of its distribution add up to
    its total, and its count of positive reviews does not exceed it. *)
Theorem analytics_distribution_adds_up py submissions ratings :
  analytics_ratings py submissions = Ok ratings ->
  Forall (fun r => 1 <= r <= 5) ratings /\
  (List.length ratings <= List.length submissions)%nat /\
  fold_right Z.add 0 (map snd (distribution ratings)) =
  Z.of_nat (List.length ratings) /\
  0 <= positive_reviews ratings <= Z.of_nat (List.length ratings).
Proof.
  intros H. destruct (analytics_ratings_in_range py _ _ H) as [Hall Hlen].
  split; [exact Hall|]. split; [exact Hlen|].
  split; [now apply distribution_total | apply positive_reviews_bound].
Qed.

Lemma analytics_distribution_adds_up_witness :
  analytics_ratings example_runtime
    [older; unrated; [(u "rating", JInt 9)]; [(u "rating", JStr (u "4"))]; newer]
  = Ok [2; 4; 5] /\
  distribution [2; 4; 5] =
  [(u "1", 0); (u "2", 1); (u "3", 0); (u "4", 1); (u "5", 1)] /\
  fold_right Z.add 0 (map snd (distribution [2; 4; 5])) = 3.
Proof.
  split; [reflexivity|]. split; [reflexivity|].
  exact (proj1 (proj2 (proj2 (analytics_distribution_adds_up example_runtime
           [older; unrated; [(u "rating", JInt 9)];
            [(u "rating", JStr (u "4"))]; newer] [2; 4; 5] eq_refl)))).
Defined.

(** X17: where [get_stats] fails on a record without rating, the loop of
    [get_analytics] skips it: a record whose rating is absent or [None]
    changes nothing of what is collected. *)
Theorem analytics_ratings_skips py pre s post :
  get (u "rating") s = None \/ get (u "rating") s = Some JNull ->
  analytics_ratings py (pre ++ s :: post) = analytics_ratings py (pre ++ post).
Proof.
  intros Hs. induction pre as [|x pre IH]; simpl.
  - now destruct Hs as [-> | ->].
  - rewrite IH. reflexivity.
Qed.

Lemma analytics_ratings_skips_witness :
  get (u "rating") unrated = None /\
  analytics_ratings example_runtime [older; unrated; newer] = Ok [2; 5].
Proof.
  split; [reflexivity|].
  exact (eq_trans (analytics_ratings_skips example_runtime [older] unrated [newer]
                     (or_introl eq_refl)) eq_refl).
Defined.

Lemma compare_prediction_invariant py t s t' :
  compare_prediction py t s = Ok t' ->
  matches t' - matches t + (ai_higher t' - ai_higher t) +
  (ai_lower t' - ai_lower t) =
  total_with_prediction t' - total_with_prediction t /\
  matches t <= matches t' /\ ai_higher t <= ai_higher t' /\
  ai_lower t <= ai_lower t' /\
  total_with_prediction t <= total_with_prediction t' <= total_with_prediction t + 1.
Proof.
  unfold compare_prediction, bind.
  destruct (get (u "predicted_stars") s) as [predicted|];
    [|intros [= <-]; lia].
  destruct (is_number predicted); [|intros [= <-]; lia].
  destruct (py_int py predicted) as [p|]; [|discriminate].
  destruct ((1 <=? p) && (p <=? 5)); [|intros [= <-]; lia].
  destruct (actual_eq (get (u "rating") s) p); [intros [= <-]; simpl; lia|].
  destruct (int_gt p (get (u "rating") s)) as [[|]|]; [| |discriminate];
    intros [= <-]; simpl; lia.
Qed.

Lemma prediction_comparison_invariant py submissions t t' :
  prediction_comparison py submissions t = Ok t' ->
  matches t' - matches t + (ai_higher t' - ai_higher t) +
  (ai_lower t' - ai_lower t) =
  total_with_prediction t' - total_with_prediction t /\
  matches t <= matches t' /\ ai_higher t <= ai_higher t' /\
  ai_lower t <= ai_lower t' /\
  total_with_prediction t <= total_with_prediction t' <=
  total_with_prediction t + Z.of_nat (List.length submissions).
Proof.
  revert t. induction submissions as [|s r IH]; intros t; simpl.
  - intros [= <-]. lia.
  - unfold bind. destruct (compare_prediction py t s) as [t1|] eqn:E;
      [|discriminate].
    intros H. apply compare_prediction_invariant in E. apply IH in H. lia.
Qed.

(** X18: in the prediction comparison of [get_analytics], every record
    that is counted is counted once: the matches, the predictions above
    and the predictions below add up to the number of records with a valid
    prediction, which is at most the number of records. *)
Theorem prediction_comparison_adds_up py submissions t :
  prediction_comparison py submissions no_tally = Ok t ->
  matches t + ai_higher t + ai_lower t = total_with_prediction t /\
  0 <= matches t /\ 0 <= ai_higher t /\ 0 <= ai_lower t /\
  total_with_prediction t <= Z.of_nat (List.length submissions).
Proof.
  intros H. apply prediction_comparison_invariant in H. simpl in H. lia.
Qed.

Lemma prediction_comparison_adds_up_witness :
  let rated r p := [(u "rating", JInt r); (u "predicted_stars", p)] in
  prediction_comparison example_runtime
    [rated 4 (JInt 4); rated 2 (JInt 5); rated 5 (JInt 1); rated 3 JNull;
     rated 3 (JInt 7)] no_tally
  = Ok {| matches := 1; ai_higher := 1; ai_lower := 1;
          total_with_prediction := 3 |} /\
  1 + 1 + 1 = 3.
Proof.
  intros rated. split; [reflexivity|].
  exact (proj1 (prediction_comparison_adds_up example_runtime
                  [rated 4 (JInt 4); rated 2 (JInt 5); rated 5 (JInt 1);
                   rated 3 JNull; rated 3 (JInt 7)]
                  {| matches := 1; ai_higher := 1; ai_lower := 1;
                     total_with_prediction := 3 |} eq_refl)).
Defined.

(* ================================================================== *)
(** ** Users and registration *)
(* ================================================================== *)

Lemma get_email_new_user h username email password role d :
  get (u "email") (new_user h username email password role d) =
  Some (JStr email).
Proof. reflexivity. Qed.

Lemma email_registered_app email users d :
  email_registered email users = Some false ->
  email_registered email (users ++ [JObj d]) =
  Some (is_email email (get (u "email") d)).
Proof.
  induction users as [|v users IH]; simpl.
  - intros _. now destruct (is_email email (get (u "email") d)).
  - destruct v; try discriminate.
    destruct (is_email email (get (u "email") d0)); [discriminate|exact IH].
Qed.

Lemma registered_emails_app a b :
  registered_emails (a ++ b) = registered_emails a ++ registered_emails b.
Proof.
  induction a as [|v a IH]; simpl; [reflexivity|].
  destruct v; try exact IH.
  destruct (get (u "email") d) as [[]|]; try exact IH.
  simpl. now rewrite IH.
Qed.

Lemma email_registered_notin email users :
  email_registered email users = Some false ->
  ~ In email (registered_emails users).
Proof.
  induction users as [|v users IH]; simpl; [tauto|].
  destruct v; try discriminate.
  unfold is_email. destruct (get (u "email") d) as [[]|]; try exact IH.
  destruct (str_eqb_spec s email) as [->|Hne]; [discriminate|].
  intros H [E|Hin]; [now apply Hne | now apply IH].
Qed.

Lemma existing_emails_app users emails d e :
  existing_emails users = Some emails ->
  get (u "email") d = Some (JStr e) ->
  existing_emails (users ++ [JObj d]) = Some (emails ++ [Some (JStr e)]).
Proof.
  intros H Hd. revert emails H.
  induction users as [|v users IH]; simpl; intros emails H.
  - injection H as <-. now rewrite Hd.
  - destruct v; try discriminate.
    destruct (existing_emails users) as [rest|] eqn:Er.
    + rewrite (IH rest eq_refl).
      destruct (get (u "email") d0) as [[]|]; try discriminate;
        now injection H as <-.
    + destruct (get (u "email") d0) as [[]|]; discriminate.
Qed.

Lemma existing_registered email users emails :
  existing_emails users = Some emails ->
  email_registered email users = Some (existsb (is_email email) emails).
Proof.
  revert emails. induction users as [|v users IH]; simpl; intros emails H.
  - now injection H as <-.
  - destruct v; try discriminate.
    destruct (existing_emails users) as [rest|] eqn:Er;
      [|destruct (get (u "email") d) as [[]|]; discriminate].
    specialize (IH rest eq_refl).
    destruct (get (u "email") d) as [[]|] eqn:Eg; try discriminate;
      injection H as <-; simpl; try exact IH.
    destruct (str_eqb s email); [reflexivity|exact IH].
Qed.

Lemma register_sent h t w req f a f1 :
  register h t w req f = (Some (Sent a), f1) ->
  email_registered (reg_email req) (load_users f) = Some false /\
  f1 = Some (JArr (load_users f ++
                   [JObj (new_user h (reg_username req) (reg_email req)
                            (reg_password req) (u "user") (drawn w))])).
Proof.
  unfold register, save_users.
  destruct (negb _); [discriminate|].
  destruct (email_registered _ _) as [[]|]; try discriminate.
  destruct (dump_ok _); [|discriminate].
  intros [= _ <-]. now split.
Qed.

Lemma register_refuses h t w req f :
  email_registered (reg_email req) (load_users f) = Some true ->
  register h t w req f = (Some (Status 400), f).
Proof.
  intros H. unfold register. rewrite H. now destruct (negb _).
Qed.

(** X19: along registrations whose writes succeed, the emails of the users
    file stay pairwise distinct: [register] never stores a second user
    under an email that a stored user already has. *)
Theorem register_keeps_emails_distinct h t w req f :
  dump_ok (users_io w) = true ->
  NoDup (registered_emails (load_users f)) ->
  NoDup (registered_emails (load_users (snd (register h t w req f)))).
Proof.
  intros Hok Hnd. unfold register, save_users. rewrite Hok.
  destruct (negb _); [exact Hnd|].
  destruct (email_registered _ _) as [[]|] eqn:E; try exact Hnd.
  cbn [snd load_users]. rewrite registered_emails_app.
  cbn [registered_emails]. rewrite get_email_new_user.
  apply NoDup_app; [exact Hnd | repeat constructor; simpl; tauto |].
  intros e Hin [<-|[]]. now apply (email_registered_notin _ _ E).
Qed.

Lemma register_keeps_emails_distinct_witness :
  registered_emails
    (load_users (snd (register example_pbkdf2 example_token
                        example_registration ada (Some (JArr []))))) =
  [u "ada@example.org"] /\
  NoDup (registered_emails
           (load_users (snd (register example_pbkdf2 example_token
                               example_registration ada (Some (JArr [])))))).
Proof.
  split; [reflexivity|].
  apply (register_keeps_emails_distinct example_pbkdf2 example_token
           example_registration ada (Some (JArr []))); [reflexivity|].
  constructor.
Defined.

(** X20: once a registration has been answered with a token, every later
    registration under the same email, whatever its user name, passwords
    and draws, is answered 400 and leaves the users file as it is. *)
Theorem register_same_email_refused h t w req f a w' req' :
  fst (register h t w req f) = Some (Sent a) ->
  reg_email req' = reg_email req ->
  register h t w' req' (snd (register h t w req f)) =
  (Some (Status 400), snd (register h t w req f)).
Proof.
  intros H He.
  destruct (register h t w req f) as [o f1] eqn:E. simpl in H. subst o.
  apply register_sent in E as [Hfree ->]. cbn [snd].
  apply register_refuses. rewrite He. cbn [load_users].
  rewrite (email_registered_app _ _ _ Hfree), get_email_new_user.
  simpl. now rewrite str_eqb_refl.
Qed.

Lemma register_same_email_refused_witness :
  let first := register example_pbkdf2 example_token example_registration
                 ada (Some (JArr [])) in
  let again := {| reg_username := u "eve"; reg_email := u "ada@example.org";
                  reg_password := u "hunter22";
                  reg_confirm_password := u "hunter22" |} in
  fst first = Some (Sent {| access_token := u "usr_00112233aabbccdd";
                            user := {| public_username := u "ada";
                                       public_email := u "ada@example.org";
                                       public_role := u "user" |} |}) /\
  register example_pbkdf2 example_token example_registration again (snd first) =
  (Some (Status 400), snd first).
Proof.
  split; [reflexivity|].
  exact (register_same_email_refused example_pbkdf2 example_token
           example_registration ada (Some (JArr [])) _ example_registration
           _ eq_refl eq_refl).
Defined.

(** After a run of [ensure_default_users] that returned, the set of emails
    can be built from the file and holds the email of every default. *)
Lemma ensure_default_users_returns h w f f1 :
  ensure_default_users h w f = (Some tt, f1) ->
  exists emails,
    existing_emails (load_users f1) = Some emails /\
    forall d, In d defaults ->
              existsb (is_email (default_email d)) emails = true.
Proof.
  unfold ensure_default_users, save_users.
  destruct (existing_emails (load_users f)) as [emails|] eqn:E; [|discriminate].
  unfold defaults.
  cbn [map fold_left add_default default_email default_username
       default_password default_role].
  destruct (existsb (is_email (u "admin@gmail.com")) emails) eqn:Ea;
    destruct (existsb (is_email (u "user@gmail.com")) emails) eqn:Eu;
    cbn [fst snd].
  - intros [= <-]. exists emails. split; [exact E|].
    intros d [<-|[<-|[]]]; assumption.
  - destruct (dump_ok _); [|discriminate]. intros [= <-]. cbn [load_users].
    eexists. split.
    + apply existing_emails_app; [exact E | apply get_email_new_user].
    + intros d [<-|[<-|[]]]; cbn [default_email]; rewrite existsb_app.
      * now rewrite Ea.
      * cbn [existsb is_email]. rewrite str_eqb_refl. cbn [orb].
        now rewrite ?orb_true_r.
  - destruct (dump_ok _); [|discriminate]. intros [= <-]. cbn [load_users].
    eexists. split.
    + apply existing_emails_app; [exact E | apply get_email_new_user].
    + intros d [<-|[<-|[]]]; cbn [default_email]; rewrite existsb_app.
      * cbn [existsb is_email]. rewrite str_eqb_refl. cbn [orb].
        now rewrite ?orb_true_r.
      * now rewrite Eu.
  - destruct (dump_ok _); [|discriminate]. intros [= <-]. cbn [load_users].
    eexists. split.
    + apply existing_emails_app; [|apply get_email_new_user].
      apply existing_emails_app; [exact E | apply get_email_new_user].
    + intros d [<-|[<-|[]]]; cbn [default_email]; rewrite !existsb_app.
      * cbn [existsb is_email]. rewrite str_eqb_refl. cbn [orb].
        now rewrite ?orb_true_r.
      * cbn [existsb is_email]. rewrite str_eqb_refl. cbn [orb].
        now rewrite ?orb_true_r.
Qed.

(** A run on a file that holds every default email writes nothing. *)
Lemma ensure_default_users_nothing_to_add h w f emails :
  existing_emails (load_users f) = Some emails ->
  (forall d, In d defaults ->
             existsb (is_email (default_email d)) emails = true) ->
  ensure_default_users h w f = (Some tt, f).
Proof.
  intros E H. unfold ensure_default_users. rewrite E.
  unfold defaults in *.
  pose proof (H _ (or_introl eq_refl)) as Ha.
  pose proof (H _ (or_intror (or_introl eq_refl))) as Hu.
  cbn [default_email] in Ha, Hu.
  cbn [map fold_left add_default default_email]. now rewrite Ha, Hu.
Qed.

(** X21: [ensure_default_users] is idempotent: after a run that returned,
    a second run, whatever it draws and whatever the file system would
    answer, returns too and leaves the users file as the first run left
    it. *)
Theorem ensure_default_users_idempotent h w f f1 w' :
  ensure_default_users h w f = (Some tt, f1) ->
  ensure_default_users h w' f1 = (Some tt, f1).
Proof.
  intros H. apply ensure_default_users_returns in H as (emails & E & Hall).
  now apply (ensure_default_users_nothing_to_add h w' f1 emails).
Qed.

Lemma ensure_default_users_idempotent_witness :
  let first := ensure_default_users example_pbkdf2 example_startup None in
  let failing := {| default_draw := fun _ => example_draw;
                    startup_io := {| dump_ok := false; left_behind := None |} |} in
  fst first = Some tt /\
  length (load_users (snd first)) = 2%nat /\
  ensure_default_users example_pbkdf2 failing (snd first) = (Some tt, snd first).
Proof.
  split; [reflexivity|]. split; [reflexivity|].
  exact (ensure_default_users_idempotent example_pbkdf2 example_startup None
           _ _ eq_refl).
Defined.

(** X22: once [ensure_default_users] has returned, a registration under
    the email of a default user is answered 400 and leaves the users file
    as it is, whether or not the run had to add that user. *)
Theorem register_default_email_refused h t w f f1 w' req :
  ensure_default_users h w f = (Some tt, f1) ->
  In (reg_email req) (map default_email defaults) ->
  register h t w' req f1 = (Some (Status 400), f1).
Proof.
  intros H Hin. apply ensure_default_users_returns in H as (emails & E & Hall).
  apply in_map_iff in Hin as (d & Hd & Hin).
  apply register_refuses.
  rewrite (existing_registered _ _ _ E), <- Hd. f_equal. now apply Hall.
Qed.

Lemma register_default_email_refused_witness :
  let started := snd (ensure_default_users example_pbkdf2 example_startup None) in
  let req := {| reg_username := u "root"; reg_email := u "admin@gmail.com";
                reg_password := u "secret1";
                reg_confirm_password := u "secret1" |} in
  register example_pbkdf2 example_token example_registration req started =
  (Some (Status 400), started) /\
  fst (register example_pbkdf2 example_token example_registration req
         (Some (JArr []))) <> Some (Status 400).
Proof.
  intros started req. split; [|discriminate].
  apply (register_default_email_refused example_pbkdf2 example_token
           example_startup None started example_registration req);
    [reflexivity | left; reflexivity].
Defined.

(** X23: a users document with an element that is not an object stops
    [ensure_default_users], and with it the loading of the module: an
    exception leaves it and the file stays as it is, also when both
    default users are already stored. *)
Theorem ensure_default_users_needs_dicts h w f v :
  In v (load_users f) ->
  match v with JObj _ => False | _ => True end ->
  ensure_default_users h w f = (None, f).
Proof.
  intros Hin Hv. unfold ensure_default_users.
  assert (E : existing_emails (load_users f) = None); [|now rewrite E].
  induction (load_users f) as [|x l IH]; [destruct Hin|].
  simpl. destruct Hin as [->|Hin].
  - destruct v; try reflexivity. destruct Hv.
  - rewrite (IH Hin). destruct x; try reflexivity.
    now destruct (get (u "email") d) as [[]|].
Qed.

Lemma ensure_default_users_needs_dicts_witness :
  let started := snd (ensure_default_users example_pbkdf2 example_startup None) in
  let spoiled := Some (JArr (load_users started ++ [JNull])) in
  ensure_default_users example_pbkdf2 example_startup started =
  (Some tt, started) /\
  ensure_default_users example_pbkdf2 example_startup spoiled = (None, spoiled).
Proof.
  split; [reflexivity|].
  apply (ensure_default_users_needs_dicts example_pbkdf2 example_startup _ JNull).
  - apply in_or_app. right. now left.
  - exact I.
Defined.
